(** * gohlcv: the resilience pipeline (rate limiter, retryer, HTTP client)

    A shallow embedding of
      - [internal/retry/retry.go]          (package retry),
      - [internal/ratelimit/ratelimit.go]  (package ratelimit),
      - [internal/httpclient/client.go]    (package httpclient),
    followed by the properties of the design document that concern them.

    Conventions of the embedding.
      - Go's [int], [int64] and [time.Duration] are 64-bit signed integers,
        [uint] is a 64-bit unsigned integer (the amd64 and arm64 targets);
        they are carried by [Z] and every arithmetic operation of the source
        is followed by its wrap-around ([wrapS], [wrapU]).
      - A [time.Time] is an instant in nanoseconds, an unbounded [Z].
      - Go's [error] interface is [option error]; [None] is [nil].
      - Wall-clock time is a virtual clock threaded through the code: it is
        read by [time.Now] and advanced by the blocking points of the source
        (the two [select] statements) and by the transport.
      - A [context.Context] is the instant at which it fires, if it ever
        does, and the error it then reports. *)

From Stdlib Require Import ZArith Lia Bool String.
From stdpp Require Import base list.

Local Open Scope Z_scope.

(** ** Machine integers *)

Module Int64.

Definition modulus : Z := 2 ^ 64.
Definition half_modulus : Z := 2 ^ 63.
Definition max_signed : Z := half_modulus - 1.
Definition min_signed : Z := - half_modulus.
Definition max_unsigned : Z := modulus - 1.

(** Two's complement reduction into [min_signed .. max_signed]. *)
Definition wrapS (z : Z) : Z := (z + half_modulus) mod modulus - half_modulus.

(** Reduction into [0 .. max_unsigned]. *)
Definition wrapU (z : Z) : Z := z mod modulus.

Definition in_signed (z : Z) : Prop := min_signed <= z <= max_signed.
Definition in_unsigned (z : Z) : Prop := 0 <= z <= max_unsigned.

(** [x << s] at type int64 with an unsigned shift count: Go does not mask the
    count, a count of 64 or more yields 0. *)
Definition shl (x s : Z) : Z :=
  if 64 <=? s then 0 else wrapS (Z.shiftl x s).

(** The conversion [int(u)] of a [uint]. *)
Definition of_uint (u : Z) : Z := wrapS u.

End Int64.

(** ** Errors, durations, contexts and the clock *)

(** The error values that travel through the pipeline: the two sentinel
    errors of package context, and any other error, named by its message. *)
Inductive error : Type :=
| Canceled
| DeadlineExceeded
| ErrorString (msg : string).

Definition Nanosecond : Z := 1.
Definition Millisecond : Z := 1000000.
Definition Second : Z := 1000000000.
Definition Minute : Z := 60 * Second.
Definition Hour : Z := 60 * Minute.

(** A context fires at most once, at [firesAt], and from then on [Err]
    reports [ctxErr] and [Done] is closed. [context.Background] never fires. *)
Record Context : Type := mkContext {
  firesAt : option Z;
  ctxErr : error
}.

Definition Background : Context := mkContext None Canceled.
Definition WithDeadline (d : Z) : Context := mkContext (Some d) DeadlineExceeded.
Definition CanceledAt (t : Z) : Context := mkContext (Some t) Canceled.

(** [ctx.Err()] read at instant [t]. *)
Definition Err (ctx : Context) (t : Z) : option error :=
  match firesAt ctx with
  | Some f => if f <=? t then Some (ctxErr ctx) else None
  | None => None
  end.

(** The statement
[[
    select {
    case <-time.After(delay):
    case <-ctx.Done():
        return ctx.Err()
    }
]]
    entered at instant [t]. The timer fires at [t + delay] (at once when
    [delay] is not positive). The result is the error of the second case when
    it is taken, together with the instant at which the statement is left.
    When both channels are ready at the same instant Go may take either case;
    the embedding takes the second, and both loops of the source test
    [ctx.Err()] first thing in the next iteration, which returns the same
    error at the same instant. *)
Definition selectAfter (ctx : Context) (delay : Z) (t : Z) : option error * Z :=
  let wake := t + Z.max 0 delay in
  match firesAt ctx with
  | Some f => if f <=? wake then (Some (ctxErr ctx), Z.max t f) else (None, wake)
  | None => (None, wake)
  end.

(** ** package retry *)

Module retry.

Record Retryer : Type := mkRetryer {
  maxRetries : Z;   (* uint *)
  baseDelay : Z;    (* time.Duration *)
  maxDelay : Z      (* time.Duration *)
}.

Definition NewRetryer (maxRetries baseDelay maxDelay : Z) : Retryer :=
  mkRetryer maxRetries baseDelay maxDelay.

(** [[
    delay := r.baseDelay * (1 << attempt)
    return min(delay, r.maxDelay)
]]
    The untyped constant 1 takes the type of the other factor, so both the
    shift and the product are computed at [time.Duration]. *)
Definition calculateBackoff (r : Retryer) (attempt : Z) : Z :=
  let delay := Int64.wrapS (baseDelay r * Int64.shl 1 attempt) in
  Z.min delay (maxDelay r).

(** The bound of [for attempt := range r.maxRetries + 1], a [uint] sum. *)
Definition attempts (r : Retryer) : Z := Int64.wrapU (maxRetries r + 1).

Section Do.

(** The attempt function is a closure over mutable state of type [St]; it
    reads and advances the clock, and it may block for ever ([None]). *)
Context {St : Type}.

Definition Attempt : Type := Z -> St -> option (bool * option error * Z * St).

Variable r : Retryer.
Variable ctx : Context.
Variable fn : Attempt.

(** The loop of [Do], with [n] iterations left, the loop variable equal to
    [attempt] and the local [lastErr], entered at instant [t] in state [s]. *)
Fixpoint loop (n : nat) (attempt : Z) (lastErr : option error) (t : Z) (s : St)
  : option (option error * Z * St) :=
  match n with
  | O => Some (lastErr, t, s)
  | S n' =>
    match Err ctx t with
    | Some err => Some (Some err, t, s)
    | None =>
      match fn t s with
      | None => None
      | Some (shouldRetry, err, t1, s1) =>
        if negb shouldRetry then Some (err, t1, s1)
        else if attempt <? maxRetries r then
          match selectAfter ctx (calculateBackoff r attempt) t1 with
          | (Some cerr, t2) => Some (Some cerr, t2, s1)
          | (None, t2) => loop n' (attempt + 1) err t2 s1
          end
        else loop n' (attempt + 1) err t1 s1
      end
    end
  end.

Definition Do (t : Z) (s : St) : option (option error * Z * St) :=
  loop (Z.to_nat (attempts r)) 0 None t s.

End Do.

(** An attempt function instrumented the way the tests of the package
    instrument theirs: every call appends what it returned to a log kept
    next to the state of the wrapped function. *)
Definition logged {St : Type} (fn : @Attempt St)
  : @Attempt (St * list (option error)) :=
  fun t sl =>
    match fn t (fst sl) with
    | None => None
    | Some (shouldRetry, err, t1, s1) =>
      Some (shouldRetry, err, t1, (s1, snd sl ++ [err]))
    end.

End retry.

(** ** package ratelimit *)

Module ratelimit.

(** The struct without its mutex: what the mutex protects is made explicit
    in [Concurrent] below. *)
Record RateLimiter : Type := mkRateLimiter {
  secCount : Z;
  minCount : Z;
  hrCount : Z;
  secReset : Z;
  minReset : Z;
  hrReset : Z;
  requestsPerSecond : Z;
  requestsPerMinute : Z;
  requestsPerHour : Z
}.

(** [NewRateLimiter], called at instant [now]. *)
Definition NewRateLimiter (now : Z)
    (requestsPerSecond requestsPerMinute requestsPerHour : Z) : RateLimiter :=
  mkRateLimiter 0 0 0 (now + Second) (now + Minute) (now + Hour)
                requestsPerSecond requestsPerMinute requestsPerHour.

Definition resetSec (now : Z) (r : RateLimiter) : RateLimiter :=
  if secReset r <? now
  then mkRateLimiter 0 (minCount r) (hrCount r)
                     (now + 1 * Second) (minReset r) (hrReset r)
                     (requestsPerSecond r) (requestsPerMinute r) (requestsPerHour r)
  else r.

Definition resetMin (now : Z) (r : RateLimiter) : RateLimiter :=
  if minReset r <? now
  then mkRateLimiter (secCount r) 0 (hrCount r)
                     (secReset r) (now + 1 * Minute) (hrReset r)
                     (requestsPerSecond r) (requestsPerMinute r) (requestsPerHour r)
  else r.

Definition resetHr (now : Z) (r : RateLimiter) : RateLimiter :=
  if hrReset r <? now
  then mkRateLimiter (secCount r) (minCount r) 0
                     (secReset r) (minReset r) (now + 1 * Hour)
                     (requestsPerSecond r) (requestsPerMinute r) (requestsPerHour r)
  else r.

(** The three [if now.After(...)] statements, in the order of the source. *)
Definition resetIfNeeded (now : Z) (r : RateLimiter) : RateLimiter :=
  resetHr now (resetMin now (resetSec now r)).

(** The test at the end of [canProceed]. *)
Definition underLimits (r : RateLimiter) : bool :=
  (secCount r <? requestsPerSecond r)
  && (minCount r <? requestsPerMinute r)
  && (hrCount r <? requestsPerHour r).

(** [canProceed], one critical section: it reads the clock, applies the
    pending resets to the receiver and answers. *)
Definition canProceed (now : Z) (r : RateLimiter) : bool * RateLimiter :=
  let r' := resetIfNeeded now r in
  (underLimits r', r').

(** [increment], another critical section. *)
Definition increment (r : RateLimiter) : RateLimiter :=
  mkRateLimiter (Int64.wrapS (secCount r + 1))
                (Int64.wrapS (minCount r + 1))
                (Int64.wrapS (hrCount r + 1))
                (secReset r) (minReset r) (hrReset r)
                (requestsPerSecond r) (requestsPerMinute r) (requestsPerHour r).

Definition pollInterval : Z := 100 * Millisecond.

(** [Wait] run by one caller with nobody else touching the limiter. The loop
    of the source has no bound: [fuel] bounds the number of its iterations
    and [None] says that more are needed. *)
Fixpoint Wait (fuel : nat) (ctx : Context) (t : Z) (r : RateLimiter)
  : option (option error * Z * RateLimiter) :=
  match fuel with
  | O => None
  | S fuel' =>
    match Err ctx t with
    | Some err => Some (Some err, t, r)
    | None =>
      let (ok, r1) := canProceed t r in
      if ok then Some (None, t, increment r1)
      else
        match selectAfter ctx pollInterval t with
        | (Some cerr, t') => Some (Some cerr, t', r1)
        | (None, t') => Wait fuel' ctx t' r1
        end
    end
  end.

(** *** Several callers sharing one limiter

    The mutex makes the body of [canProceed] and the body of [increment]
    atomic, each on its own: [Wait] takes and releases the lock twice on the
    path that admits. A caller is therefore at one of the points below, and
    a schedule chooses which caller runs its next atomic step and when. *)
Module Concurrent.

Inductive pc : Type :=
| AtTop                       (* about to test ctx.Err() and call canProceed *)
| Granted                     (* canProceed answered true, increment not yet run *)
| Polling (since : Z)         (* in the select statement, entered at [since] *)
| Returned (res : option error).

Record Caller : Type := mkCaller { callerCtx : Context; at_ : pc }.

Record System : Type := mkSystem {
  shared : RateLimiter;
  callers : list Caller
}.

(** One atomic step of a caller at instant [t]. *)
Definition stepCaller (t : Z) (c : Caller) (r : RateLimiter) : Caller * RateLimiter :=
  match at_ c with
  | AtTop =>
    match Err (callerCtx c) t with
    | Some err => (mkCaller (callerCtx c) (Returned (Some err)), r)
    | None =>
      let (ok, r1) := canProceed t r in
      (mkCaller (callerCtx c) (if ok then Granted else Polling t), r1)
    end
  | Granted => (mkCaller (callerCtx c) (Returned None), increment r)
  | Polling since =>
    match selectAfter (callerCtx c) pollInterval since with
    | (Some cerr, t') =>
      if t' <=? t then (mkCaller (callerCtx c) (Returned (Some cerr)), r) else (c, r)
    | (None, t') =>
      if t' <=? t then (mkCaller (callerCtx c) AtTop, r) else (c, r)
    end
  | Returned _ => (c, r)
  end.

(** A schedule is a list of (caller, instant) pairs. *)
Definition step (sys : System) (ev : nat * Z) : System :=
  match callers sys !! ev.1 with
  | Some c =>
    let (c', r') := stepCaller ev.2 c (shared sys) in
    mkSystem r' (<[ev.1 := c']> (callers sys))
  | None => sys
  end.

Definition run (sys : System) (schedule : list (nat * Z)) : System :=
  fold_left step schedule sys.

Definition isAdmitted (c : Caller) : bool :=
  match at_ c with
  | Returned None => true
  | _ => false
  end.

(** The number of callers to which [Wait] has returned nil. *)
Definition admitted (sys : System) : nat :=
  length (List.filter isAdmitted (callers sys)).

End Concurrent.

End ratelimit.

(** ** package httpclient *)

Module httpclient.

Import retry ratelimit.

(** An [*http.Response] points into a heap of response objects; closing the
    body mutates the object, whoever else holds the pointer. *)
Record Response : Type := mkResponse {
  StatusCode : Z;       (* int *)
  Body : string;
  bodyClosed : bool
}.

Definition closeBody (resp : Response) : Response :=
  mkResponse (StatusCode resp) (Body resp) true.

(** What one call of [c.httpClient.Do(req)] brings back: a transport
    failure with no response, or a response (status, body); and the time
    the exchange took. *)
Record Exchange : Type := mkExchange {
  latency : Z;
  outcome : error + Z * string
}.

(** The transport is a black box; its answer to the [k]-th call it
    receives (counted from 0) is [transport k]. *)
Definition Transport : Type := nat -> Exchange.

Record Client : Type := mkClient {
  httpClient : Transport;
  retryer : Retryer;
  retryOnStatus : list Z   (* []uint, the nil slice being the empty list *)
}.

(** The mutable objects a [Client] points to: its limiter, the transport's
    call count and the responses allocated so far. *)
Record World : Type := mkWorld {
  limiter : RateLimiter;
  calls : nat;
  heap : list Response
}.

Record RateLimitConfig : Type := mkRateLimitConfig {
  RequestsPerSecond : Z;
  RequestsPerMinute : Z;
  RequestsPerHour : Z
}.

Record RetryConfig : Type := mkRetryConfig {
  MaxRetries : Z;
  BaseDelay : Z;
  MaxDelay : Z;
  RetryOnStatus : list Z
}.

Record ClientConfig : Type := mkClientConfig {
  HttpClient : option Transport;
  rateLimitConfig : RateLimitConfig;
  retryConfig : RetryConfig
}.

(** [NewClient] called at instant [now]; [defaultClient] stands for
    [&http.Client{Timeout: 30 * time.Second}]. It returns the client and
    the limiter it allocates. *)
Definition NewClient (defaultClient : Transport) (now : Z) (config : ClientConfig)
  : Client * RateLimiter :=
  (mkClient (default defaultClient (HttpClient config))
            (NewRetryer (MaxRetries (retryConfig config))
                        (BaseDelay (retryConfig config))
                        (MaxDelay (retryConfig config)))
            (RetryOnStatus (retryConfig config)),
   NewRateLimiter now (RequestsPerSecond (rateLimitConfig config))
                      (RequestsPerMinute (rateLimitConfig config))
                      (RequestsPerHour (rateLimitConfig config))).

(** The loop over [c.retryOnStatus]: is some element, converted to [int],
    equal to the status code? *)
Definition retryable (c : Client) (status : Z) : bool :=
  existsb (fun s => status =? Int64.of_uint s) (retryOnStatus c).

(** The closure handed to [retryer.Do]. Its state is the world and the
    variable [resp] of [Do] that it captures. [fuel] bounds the iterations
    of each [limiter.Wait]. *)
Definition attempt (c : Client) (fuel : nat) (ctx : Context)
  : @Attempt (World * option nat) :=
  fun t s =>
    match Wait fuel ctx t (limiter s.1) with
    | None => None
    | Some (Some err, t1, l1) =>
      Some (false, Some err, t1, (mkWorld l1 (calls s.1) (heap s.1), s.2))
    | Some (None, t1, l1) =>
      let ex := httpClient c (calls s.1) in
      let t2 := t1 + latency ex in
      match outcome ex with
      | inl err =>
        Some (true, Some err, t2, (mkWorld l1 (S (calls s.1)) (heap s.1), None))
      | inr (status, body) =>
        let p := length (heap s.1) in
        let h := heap s.1 ++ [mkResponse status body false] in
        if retryable c status
        then Some (true, None, t2,
                   (mkWorld l1 (S (calls s.1)) (alter closeBody p h), Some p))
        else Some (false, None, t2, (mkWorld l1 (S (calls s.1)) h, Some p))
      end
    end.

(** [Client.Do]: the response pointer and the error it returns, the instant
    at which it returns and the world it leaves. *)
Definition Do (c : Client) (fuel : nat) (ctx : Context) (t : Z) (w : World)
  : option (option nat * option error * Z * World) :=
  match retry.Do (retryer c) ctx (attempt c fuel ctx) t (w, None) with
  | None => None
  | Some (err, t', s) => Some (s.2, err, t', s.1)
  end.

End httpclient.

(** ** package types *)

Module types.

Definition Exchange : Type := string.
Definition ExchangeNSE : Exchange := "NSE"%string.

Definition DataFreshness : Type := string.
Definition FreshnessRealtime : DataFreshness := "realtime"%string.
Definition FreshnessDelayed : DataFreshness := "delayed"%string.
Definition FreshnessEndOfDay : DataFreshness := "endOfDay"%string.
Definition FreshnessHistorical : DataFreshness := "historical"%string.

(** The bar; [F] stands for [float64]. *)
Record OHLCV (F : Type) : Type := mkOHLCV {
  Symbol : string;
  Exchange_ : Exchange;
  Open : F;
  High : F;
  Low : F;
  Close : F;
  Volume : Z;
  DateTime : Z;
  Source : string;
  Freshness : DataFreshness
}.

Definition Interval : Type := string.
Definition Interval1m : Interval := "1m"%string.
Definition Interval5m : Interval := "5m"%string.
Definition Interval15m : Interval := "15m"%string.
Definition Interval30m : Interval := "30m"%string.
Definition Interval1h : Interval := "1h"%string.
Definition Interval1d : Interval := "1d"%string.
Definition Interval5d : Interval := "5d"%string.
Definition Interval1wk : Interval := "1wk"%string.
Definition Interval1mo : Interval := "1mo"%string.
Definition Interval3mo : Interval := "3mo"%string.

End types.

(** ** package yahoo *)

Module yahoo.

Import types.

Definition Name : string := "yahoo"%string.


End yahoo.

(** ** package upstox *)

Module upstox.

Import types.

Definition Name : string := "upstox"%string.

(** [intervalToUnitInterval]: the unit, the count and the error. *)
Definition intervalToUnitInterval (i : Interval) : string * string * option error :=
  if String.eqb i Interval1m then ("minutes", "1", None)%string
  else if String.eqb i Interval5m then ("minutes", "5", None)%string
  else if String.eqb i Interval15m then ("minutes", "15", None)%string
  else if String.eqb i Interval30m then ("minutes", "30", None)%string
  else if String.eqb i Interval1h then ("hours", "1", None)%string
  else if String.eqb i Interval1d then ("days", "1", None)%string
  else if String.eqb i Interval1wk then ("weeks", "1", None)%string
  else if String.eqb i Interval1mo then ("months", "1", None)%string
  else (""%string, ""%string,
        Some (ErrorString (String.append "unknown interval: " i))).

End upstox.

(** ** package marketdata *)

Module marketdata.

Import types.

(** What [Year], [Month] and [Day] read off a [time.Time]. *)
Record Date : Type := mkDate { Year : Z; Month : Z; Day : Z }.

(** The zero [time.Time], January 1 of year 1, 00:00 UTC, as an instant. *)
Definition zeroTime : Z := -62135596800 * Second.

Definition IsZero (t : Z) : bool := t =? zeroTime.

Section Fetch.

(** [W] is the world the providers act on, [F] is [float64]. *)
Context {W F : Type}.

(** The interface [provider.OHLCVProvider]. *)
Record OHLCVProvider : Type := mkProvider {
  Name : string;
  Provide : Context -> string -> Exchange -> Interval -> Z -> Z -> W ->
            list (OHLCV F) * option error * W
}.

Record MarketData : Type := mkMarketData {
  exchange : Exchange;
  upstox : OHLCVProvider;
  yahoo : OHLCVProvider
}.

(** The time zone database, for the location "Asia/Kolkata":
    [dateIn t] is the date that [t.In(loc)] shows, and [midnight d] is
    [time.Date(d.Year, d.Month, d.Day, 0, 0, 0, 0, loc)]. [In] does not
    change the instant, which is all the providers receive here. *)
Variable dateIn : Z -> Date.
Variable midnight : Date -> Z.

(** [Fetch], called at instant [now]. *)
Definition Fetch (m : MarketData) (now : Z) (ctx : Context) (symbol : string)
    (interval : Interval) (start end_ : Z) (w : W)
  : list (OHLCV F) * option error * W :=
  let today := dateIn now in
  let start := if IsZero start then midnight today else start in
  if (Year (dateIn start) =? Year today)
     && (Month (dateIn start) =? Month today)
     && (Day (dateIn start) =? Day today)
  then Provide (yahoo m) ctx symbol (exchange m) interval start end_ w
  else
    let '(data, err, w1) :=
      Provide (upstox m) ctx symbol (exchange m) interval start end_ w in
    if negb (bool_decide (err = None)) || (length data =? 0)%nat
    then Provide (yahoo m) ctx symbol (exchange m) interval start end_ w1
    else (data, None, w1).

End Fetch.

End marketdata.

(** ** Vocabulary of the properties *)

Module limits.

Import ratelimit.

(** The ceilings are non-negative [int]s, as the configuration requires. *)
Definition ceiling (n : Z) : Prop := 0 <= n <= Int64.max_signed.

(** Every window holds a count between 0 and its ceiling. *)
Definition withinLimits (r : RateLimiter) : Prop :=
  0 <= secCount r <= requestsPerSecond r
  /\ 0 <= minCount r <= requestsPerMinute r
  /\ 0 <= hrCount r <= requestsPerHour r.

Definition configuredAs (rps rpm rph : Z) (r : RateLimiter) : Prop :=
  requestsPerSecond r = rps /\ requestsPerMinute r = rpm /\ requestsPerHour r = rph.

(** The limiters that a program can hold: one made by [NewRateLimiter] at
    some instant, then used by any number of calls of [Wait] that returned,
    one after the other, each with a signal of its own, at any instant. *)
Inductive reachable (rps rpm rph : Z) : RateLimiter -> Prop :=
| reachable_new (now : Z) :
    reachable rps rpm rph (NewRateLimiter now rps rpm rph)
| reachable_wait (r : RateLimiter) (fuel : nat) (ctx : Context) (t : Z)
    (res : option error) (t' : Z) (r' : RateLimiter) :
    reachable rps rpm rph r ->
    Wait fuel ctx t r = Some (res, t', r') ->
    reachable rps rpm rph r'.

(** A window is open at [t], or opens within [d] nanoseconds. *)
Definition opensWithin (d t : Z) (r : RateLimiter) : Prop :=
  (secCount r < requestsPerSecond r \/ secReset r - t < d)
  /\ (minCount r < requestsPerMinute r \/ minReset r - t < d)
  /\ (hrCount r < requestsPerHour r \/ hrReset r - t < d).

Definition positiveLimits (r : RateLimiter) : Prop :=
  1 <= requestsPerSecond r /\ 1 <= requestsPerMinute r /\ 1 <= requestsPerHour r.

(** The limiter that [Wait], called at instant [t], holds after [k]
    iterations of its loop that did not admit: each has run [canProceed],
    which applied the resets pending at its instant, and slept for the poll
    interval. *)
Fixpoint afterPolls (t : Z) (k : nat) (r : RateLimiter) : RateLimiter :=
  match k with
  | O => r
  | S k' => afterPolls (t + pollInterval) k' (resetIfNeeded t r)
  end.

End limits.

(** An attempt function that returns, and asks for another attempt, every
    time. *)
Definition alwaysRetries {St : Type} (fn : @retry.Attempt St) : Prop :=
  forall t s, exists err t1 s1, fn t s = Some (true, err, t1, s1).

(** What [Do] has on record about the exchanges made since the transport
    had received [c0] calls: nothing yet, or the last exchange, whose
    response, if there is one, is what [resp] points to; its body is closed
    exactly when its status asks for a retry. *)
Definition lastExchange (c : httpclient.Client) (s : httpclient.World * option nat)
  : Prop :=
  match httpclient.outcome (httpclient.httpClient c (pred (httpclient.calls s.1))) with
  | inl _ => s.2 = None
  | inr (status, body) =>
    exists p, s.2 = Some p
      /\ httpclient.heap s.1 !! p
         = Some (httpclient.mkResponse status body (httpclient.retryable c status))
  end.

Definition recorded (c : httpclient.Client) (c0 : nat)
    (s : httpclient.World * option nat) : Prop :=
  (httpclient.calls s.1 = c0 /\ s.2 = None)
  \/ ((c0 < httpclient.calls s.1)%nat /\ lastExchange c s).

(** Every exchange brings back a response whose status is in the
    configured set. *)
Definition alwaysRetryableStatus (c : httpclient.Client) : Prop :=
  forall k, exists status body,
    httpclient.outcome (httpclient.httpClient c k) = inr (status, body)
    /\ httpclient.retryable c status = true.

Import ratelimit limits.

Ltac unfold_limiter :=
  unfold canProceed, resetIfNeeded, resetHr, resetMin, resetSec, underLimits,
    increment, withinLimits, configuredAs, ceiling in *;
  cbn [secCount minCount hrCount secReset minReset hrReset
       requestsPerSecond requestsPerMinute requestsPerHour fst snd] in *.

Ltac split_resets :=
  repeat match goal with
  | |- context [if ?a <? ?b then _ else _] => destruct (Z.ltb_spec a b)
  | H : context [if ?a <? ?b then _ else _] |- _ => destruct (Z.ltb_spec a b)
  end;
  cbn [secCount minCount hrCount secReset minReset hrReset
       requestsPerSecond requestsPerMinute requestsPerHour fst snd] in *.

Import retry.

(** ** Configurations used as examples *)

(** The retryer of [TestRetryer_CalculateBackoff], with room for more
    attempts. *)
Definition retryer_100ms_1s : retry.Retryer :=
  retry.NewRetryer 60 (100 * Millisecond) (1 * Second).

(** A limiter that admits one request per window, made at instant 0, and two
    callers of [Wait] with [context.Background()]. *)
Definition oneRequestLimiter : ratelimit.RateLimiter :=
  ratelimit.NewRateLimiter 0 1 1 1.

Definition twoCallers : ratelimit.Concurrent.System :=
  ratelimit.Concurrent.mkSystem oneRequestLimiter
    [ ratelimit.Concurrent.mkCaller Background ratelimit.Concurrent.AtTop;
      ratelimit.Concurrent.mkCaller Background ratelimit.Concurrent.AtTop ].

(** Both callers run [canProceed] before either runs [increment], all within
    the first microseconds of the limiter's life. *)
Definition racingSchedule : list (nat * Z) :=
  [ (0%nat, 1000); (1%nat, 2000); (0%nat, 3000); (1%nat, 4000) ].

(** The same four steps with the first caller finishing before the second
    one starts. *)
Definition politeSchedule : list (nat * Z) :=
  [ (0%nat, 1000); (0%nat, 2000); (1%nat, 3000); (1%nat, 4000) ].

(** The transport of the package's tests: it answers the [k]-th call with
    the [k]-th entry of a script, and fails once the script is used up. *)
Definition mockTransport (latency : Z) (responses : list (error + Z * string))
  : httpclient.Transport :=
  fun k =>
    match responses !! k with
    | Some o => httpclient.mkExchange latency o
    | None => httpclient.mkExchange latency (inl (ErrorString "no more mock responses"))
    end.

(** A server that answers 500 to everything, 5 ms after being asked. *)
Definition brokenServer : httpclient.Transport :=
  fun _ => httpclient.mkExchange (5 * Millisecond) (inr (500, "Error"%string)).

(** The client of [TestClient_Do_MaxRetriesExceeded], in front of that
    server, and the world it starts in when made at instant 0. *)
Definition impatientClient : httpclient.Client :=
  httpclient.mkClient brokenServer
    (retry.NewRetryer 2 (10 * Millisecond) (100 * Millisecond)) [500].

Definition freshWorld : httpclient.World :=
  httpclient.mkWorld (ratelimit.NewRateLimiter 0 100 1000 10000) 0 [].

(** The client of [TestClient_Do_StatusBasedRetry], retrying on 500 and 502. *)
Definition recoveringClient : httpclient.Client :=
  httpclient.mkClient
    (mockTransport (5 * Millisecond)
       [inr (500, "Error"%string); inr (500, "Error"%string); inr (200, "Success"%string)])
    (retry.NewRetryer 3 (10 * Millisecond) (100 * Millisecond)) [500; 502].

(** The configuration of [TestClient_Do_RateLimitError]: every ceiling at
    0, no status to retry on; the retry budget is left open. *)
Definition blockedConfig (tr : httpclient.Transport) (maxRetries : Z)
  : httpclient.ClientConfig :=
  httpclient.mkClientConfig (Some tr)
    (httpclient.mkRateLimitConfig 0 0 0)
    (httpclient.mkRetryConfig maxRetries (10 * Millisecond) (100 * Millisecond) []).

(** A limiter with ceilings 2, 100 and 1000 made at instant 0, after two
    admissions 1 ms apart. *)
Definition afterTwoAdmissions : ratelimit.RateLimiter :=
  ratelimit.increment (ratelimit.resetIfNeeded (2 * Millisecond)
    (ratelimit.increment (ratelimit.resetIfNeeded (1 * Millisecond)
      (ratelimit.NewRateLimiter 0 2 100 1000)))).

(** An attempt function in the manner of [TestRetryer_Do_SuccessAfterRetries]:
    its state counts the calls made so far, each call takes 1 ms, the first
    [failures] calls ask for a retry with an error and the next one stops
    with nil. *)
Definition flaky (failures : nat) : @retry.Attempt nat :=
  fun t calls =>
    if (calls <? failures)%nat
    then Some (true, Some (ErrorString "temporary error"), t + 1 * Millisecond, S calls)
    else Some (false, None, t + 1 * Millisecond, S calls).

(** The retryer of [TestRetryer_Do_SuccessAfterRetries]. *)
Definition retryer_3_10ms_1s : retry.Retryer :=
  retry.NewRetryer 3 (10 * Millisecond) (1 * Second).

(** The retryer of [TestRetryer_Do_NoRetries]. *)
Definition retryer_once : retry.Retryer :=
  retry.NewRetryer 0 (10 * Millisecond) (1 * Second).

(** Every window that is full rolls over at [M] or before. *)
Definition opensBy (M : Z) (r : ratelimit.RateLimiter) : Prop :=
  (ratelimit.secCount r < ratelimit.requestsPerSecond r \/ ratelimit.secReset r <= M)
  /\ (ratelimit.minCount r < ratelimit.requestsPerMinute r \/ ratelimit.minReset r <= M)
  /\ (ratelimit.hrCount r < ratelimit.requestsPerHour r \/ ratelimit.hrReset r <= M).

(** Calls of [Wait] made one after the other at the given instants, each of
    which is admitted by the first test of its loop, without a poll. *)
Fixpoint waitEach (ctx : Context) (instants : list Z) (r : ratelimit.RateLimiter)
  : option ratelimit.RateLimiter :=
  match instants with
  | [] => Some r
  | t :: rest =>
    match ratelimit.Wait 1 ctx t r with
    | Some (None, _, r') => waitEach ctx rest r'
    | _ => None
    end
  end.

(** No count of [r'] is higher than in [r]: each is what it was or has been
    reset to 0. *)
Definition nothingConsumed (r r' : ratelimit.RateLimiter) : Prop :=
  (ratelimit.secCount r' = ratelimit.secCount r \/ ratelimit.secCount r' = 0)
  /\ (ratelimit.minCount r' = ratelimit.minCount r \/ ratelimit.minCount r' = 0)
  /\ (ratelimit.hrCount r' = ratelimit.hrCount r \/ ratelimit.hrCount r' = 0).

(** The limiter of [TestRateLimiter_Wait_RespectsAllLimits] made at instant
    0, after its two admissions. *)
Definition fullSecond : ratelimit.RateLimiter :=
  ratelimit.mkRateLimiter 2 2 2 Second Minute Hour 2 100 1000.

(** The attempt function of [TestRetryer_Do_MaxRetriesExceeded]: it counts
    its calls and asks for a retry every time, with the same error. *)
Definition stubborn : @retry.Attempt nat :=
  fun t calls =>
    Some (true, Some (ErrorString "persistent error"), t + 1 * Millisecond, S calls).

(** A server that answers 200 to everything, and a client in front of it
    that would retry on 500. *)
Definition healthyServer : httpclient.Transport :=
  fun _ => httpclient.mkExchange (5 * Millisecond) (inr (200, "OK"%string)).

Definition plainClient : httpclient.Client :=
  httpclient.mkClient healthyServer
    (retry.NewRetryer 3 (10 * Millisecond) (100 * Millisecond)) [500].

(** The retryer of [TestRetryer_Do_MaxRetriesExceeded]. *)
Definition retryer_2_10ms_1s : retry.Retryer :=
  retry.NewRetryer 2 (10 * Millisecond) (1 * Second).

(** The client of [TestClient_Do_RateLimitError] and the world it starts
    in, both made by [NewClient] at instant 0. *)
Definition blockedClient : httpclient.Client :=
  (httpclient.NewClient brokenServer 0 (blockedConfig brokenServer 3)).1.

Definition blockedWorld : httpclient.World :=
  httpclient.mkWorld
    (httpclient.NewClient brokenServer 0 (blockedConfig brokenServer 3)).2 0 [].

(** For the instants of January 1970, the date in Asia/Kolkata (UTC+5:30)
    and the instant at which such a date begins there. *)
Definition kolkataDate (t : Z) : marketdata.Date :=
  marketdata.mkDate 1970 1 ((t + (5 * Hour + 30 * Minute)) / (24 * Hour) + 1).

Definition kolkataMidnight (d : marketdata.Date) : Z :=
  (marketdata.Day d - 1) * (24 * Hour) - (5 * Hour + 30 * Minute).

(** Two providers that log their calls in the world: one that knows no
    symbol, one that answers with one bar. *)
Definition failingUpstox : @marketdata.OHLCVProvider (list string) Z :=
  marketdata.mkProvider upstox.Name
    (fun _ symbol exchange _ _ _ w =>
       ([], Some (ErrorString "symbol not found"), w ++ [upstox.Name])).

Definition oneBarYahoo : @marketdata.OHLCVProvider (list string) Z :=
  marketdata.mkProvider yahoo.Name
    (fun _ symbol exchange _ start _ w =>
       ([types.mkOHLCV Z symbol exchange 100 110 90 105 1000 start yahoo.Name
           types.FreshnessDelayed],
        None, w ++ [yahoo.Name])).

Definition demoMarket : @marketdata.MarketData (list string) Z :=
  marketdata.mkMarketData types.ExchangeNSE failingUpstox oneBarYahoo.

(** Noon UTC of January 6, 1970. *)
Definition demoNow : Z := 5 * (24 * Hour) + 12 * Hour.

(** * Properties *)

(** ** Machine integers *)

Lemma wrapS_small (z : Z) : Int64.in_signed z -> Int64.wrapS z = z.
Proof.
  unfold Int64.in_signed, Int64.wrapS, Int64.min_signed, Int64.max_signed,
    Int64.half_modulus, Int64.modulus.
  intros Hz. rewrite Z.mod_small; lia.
Qed.

Lemma wrapS_range (z : Z) : Int64.in_signed (Int64.wrapS z).
Proof.
  unfold Int64.in_signed, Int64.wrapS, Int64.min_signed, Int64.max_signed,
    Int64.half_modulus, Int64.modulus.
  pose proof (Z.mod_pos_bound (z + 2 ^ 63) (2 ^ 64) ltac:(lia)). lia.
Qed.

Lemma wrapU_small (z : Z) : Int64.in_unsigned z -> Int64.wrapU z = z.
Proof.
  unfold Int64.in_unsigned, Int64.wrapU, Int64.max_unsigned, Int64.modulus.
  intros Hz. rewrite Z.mod_small; lia.
Qed.

Lemma shl_one_small (k : Z) : 0 <= k < 63 -> Int64.shl 1 k = 2 ^ k.
Proof.
  intros Hk. unfold Int64.shl.
  destruct (64 <=? k) eqn:E; [lia|].
  rewrite Z.shiftl_mul_pow2, Z.mul_1_l by lia.
  apply wrapS_small.
  unfold Int64.in_signed, Int64.min_signed, Int64.max_signed, Int64.half_modulus.
  pose proof (Z.pow_lt_mono_r 2 k 63 ltac:(lia) ltac:(lia) ltac:(lia)).
  pose proof (Z.pow_pos_nonneg 2 k ltac:(lia) ltac:(lia)). lia.
Qed.

(** ** The retryer *)

(** X1. Where the product does not leave the range of [time.Duration], the
    backoff is the capped exponential of the design. *)
Lemma calculateBackoff_in_range (r : Retryer) (k : Z) :
  0 <= k < 63 ->
  Int64.in_signed (baseDelay r * 2 ^ k) ->
  calculateBackoff r k = Z.min (baseDelay r * 2 ^ k) (maxDelay r).
Proof.
  intros Hk Hr. unfold calculateBackoff.
  rewrite shl_one_small by assumption. now rewrite wrapS_small.
Qed.

Lemma calculateBackoff_zero_base (r : Retryer) (k : Z) :
  baseDelay r = 0 -> 0 <= maxDelay r -> calculateBackoff r k = 0.
Proof.
  intros Hb Hm. unfold calculateBackoff. rewrite Hb, Z.mul_0_l.
  change (Int64.wrapS 0) with 0. lia.
Qed.

(** C2, at a failing input. With the delays of the package's own test
    (100 ms, capped at 1 s) the formula of the design gives 1 s at attempt 37,
    and so does the code up to attempt 36; at attempt 37 the product
    100 ms * 2^37 exceeds the largest [time.Duration], wraps around to a
    negative number, and [min] returns it: the timer fires at once. From
    attempt 56 on the computed delay is 0. *)
Theorem calculateBackoff_wraps_at_37 :
  Z.min (baseDelay retryer_100ms_1s * 2 ^ 37) (maxDelay retryer_100ms_1s) = 1 * Second
  /\ calculateBackoff retryer_100ms_1s 36 = 1 * Second
  /\ calculateBackoff retryer_100ms_1s 37 = -4702848726509551616
  /\ calculateBackoff retryer_100ms_1s 56 = 0
  /\ calculateBackoff retryer_100ms_1s 64 = 0.
Proof. repeat split; vm_compute; reflexivity. Qed.

Section RetryerLoop.

Context {St : Type}.
Variable r : Retryer.
Variable ctx : Context.

Lemma Err_never (t : Z) : firesAt ctx = None -> Err ctx t = None.
Proof. unfold Err. now intros ->. Qed.

Lemma selectAfter_never (d t : Z) :
  firesAt ctx = None -> selectAfter ctx d t = (None, t + Z.max 0 d).
Proof. unfold selectAfter. now intros ->. Qed.

(** An iteration that starts after the signal has fired returns the error
    of the signal; the attempt function is not consulted. *)
Lemma loop_fired (fn : @Attempt St) (n : nat) (k : Z) (lastErr : option error)
    (t : Z) (s : St) (e : error) :
  Err ctx t = Some e ->
  loop r ctx fn (S n) k lastErr t s = Some (Some e, t, s).
Proof. intros He. simpl. now rewrite He. Qed.

(** X3. When the signal has fired before [Do] starts and the loop has at
    least one iteration, [Do] returns the error of the signal at once and
    leaves the state of the attempt function alone: no call is made. *)
Lemma Do_fired (fn : @Attempt St) (t : Z) (s : St) (e : error) :
  Err ctx t = Some e -> 1 <= attempts r ->
  retry.Do r ctx fn t s = Some (Some e, t, s).
Proof.
  intros He Hn. unfold retry.Do.
  destruct (Z.to_nat (attempts r)) as [|n] eqn:E; [lia|].
  now apply loop_fired.
Qed.

Lemma loop_always_retry (fn : @Attempt St) :
  firesAt ctx = None -> alwaysRetries fn ->
  forall (n : nat) (k : Z) (lastErr : option error) (t : Z) (s : St)
         (log : list (option error)),
  exists e t' s' log',
    loop r ctx (logged fn) n k lastErr t (s, log) = Some (e, t', (s', log ++ log'))
    /\ length log' = n
    /\ last (lastErr :: log') = Some e.
Proof.
  intros Hctx Hfn. induction n as [|n IH]; intros k lastErr t s log.
  - exists lastErr, t, s, []. rewrite app_nil_r. auto.
  - destruct (Hfn t s) as (err & t1 & s1 & Hcall).
    cbn [loop]. rewrite Err_never by assumption.
    unfold logged at 1. cbn [fst snd]. rewrite Hcall. cbn [negb].
    destruct (k <? maxRetries r).
    + rewrite selectAfter_never by assumption.
      destruct (IH (k + 1) err (t1 + Z.max 0 (calculateBackoff r k)) s1 (log ++ [err]))
        as (e & t' & s' & log' & Hrun & Hlen & Hlast).
      exists e, t', s', (err :: log'). rewrite Hrun.
      rewrite <- app_assoc. cbn. split; [reflexivity|]. split; [lia|].
      exact Hlast.
    + destruct (IH (k + 1) err t1 s1 (log ++ [err]))
        as (e & t' & s' & log' & Hrun & Hlen & Hlast).
      exists e, t', s', (err :: log'). rewrite Hrun.
      rewrite <- app_assoc. cbn. split; [reflexivity|]. split; [lia|].
      exact Hlast.
Qed.

(** X2. Below the largest [uint], under a signal that never fires and with
    an attempt function that asks for a retry every time, [Do] makes
    [maxRetries + 1] calls and returns the error of the last one. *)
Lemma Do_always_retry (fn : @Attempt St) (t : Z) (s : St) :
  firesAt ctx = None -> alwaysRetries fn ->
  0 <= maxRetries r < Int64.max_unsigned ->
  exists e t' s' log,
    retry.Do r ctx (logged fn) t (s, []) = Some (e, t', (s', log))
    /\ Z.of_nat (length log) = maxRetries r + 1
    /\ last log = Some e.
Proof.
  intros Hctx Hfn HR. unfold retry.Do.
  destruct (loop_always_retry fn Hctx Hfn (Z.to_nat (attempts r)) 0 None t s [])
    as (e & t' & s' & log & Hrun & Hlen & Hlast).
  exists e, t', s', log. cbn [app] in Hrun. split; [exact Hrun|].
  assert (Hatt : attempts r = maxRetries r + 1).
  { unfold attempts. apply wrapU_small. unfold Int64.in_unsigned. lia. }
  split; [lia|].
  destruct log as [|x log]; [cbn in Hlen; lia|exact Hlast].
Qed.

(** C1, at a failing input. When [maxRetries] is the largest [uint] the sum
    [r.maxRetries + 1] wraps to 0 and the range loop has no iteration:
    whatever the delays, the attempt function and the state, [Do] returns
    nil at once and the log of calls stays empty, where the design promises
    2^64 calls and the error of the last. *)
Theorem Do_max_uint_never_calls (b m : Z) (fn : @Attempt St) (t : Z) (s : St) :
  retry.Do (NewRetryer Int64.max_unsigned b m) Background (logged fn) t (s, [])
  = Some (None, t, (s, [])).
Proof. reflexivity. Qed.

(** C8, at a failing input. With the same [maxRetries], a signal cancelled
    before [Do] starts is not noticed either: the loop body holds the only
    test of [ctx.Err()], it is never entered, and [Do] returns nil instead of
    [context.Canceled]. *)
Theorem Do_max_uint_ignores_cancel (b m : Z) (fn : @Attempt St) (t0 t : Z) (s : St) :
  Err (CanceledAt t0) (Z.max t0 t) = Some Canceled
  /\ retry.Do (NewRetryer Int64.max_unsigned b m) (CanceledAt t0) fn (Z.max t0 t) s
     = Some (None, Z.max t0 t, s).
Proof.
  split; [|reflexivity].
  unfold Err, CanceledAt; cbn. destruct (t0 <=? Z.max t0 t) eqn:E; [reflexivity|lia].
Qed.

End RetryerLoop.

(** ** The rate limiter *)

Lemma resetIfNeeded_config (now : Z) (r : RateLimiter) :
  requestsPerSecond (resetIfNeeded now r) = requestsPerSecond r
  /\ requestsPerMinute (resetIfNeeded now r) = requestsPerMinute r
  /\ requestsPerHour (resetIfNeeded now r) = requestsPerHour r.
Proof. unfold_limiter. split_resets. all: auto. Qed.

Lemma resetIfNeeded_within (now : Z) (r : RateLimiter) :
  withinLimits r -> withinLimits (resetIfNeeded now r).
Proof. unfold_limiter. intros H. split_resets. all: lia. Qed.

Lemma underLimits_true (r : RateLimiter) :
  underLimits r = true <->
  secCount r < requestsPerSecond r
  /\ minCount r < requestsPerMinute r
  /\ hrCount r < requestsPerHour r.
Proof. unfold underLimits. rewrite !andb_true_iff, !Z.ltb_lt. tauto. Qed.

(** The increment does not wrap when the counts are below ceilings that are
    [int]s. *)
Lemma increment_counts (r : RateLimiter) :
  withinLimits r -> underLimits r = true ->
  ceiling (requestsPerSecond r) -> ceiling (requestsPerMinute r) ->
  ceiling (requestsPerHour r) ->
  secCount (increment r) = secCount r + 1
  /\ minCount (increment r) = minCount r + 1
  /\ hrCount (increment r) = hrCount r + 1.
Proof.
  intros Hw Hu Hs Hm Hh. apply underLimits_true in Hu.
  unfold withinLimits, ceiling in *. unfold increment. cbn.
  rewrite !wrapS_small; [auto| | |];
    unfold Int64.in_signed, Int64.min_signed, Int64.max_signed,
      Int64.half_modulus in *; lia.
Qed.

Lemma increment_within (r : RateLimiter) :
  withinLimits r -> underLimits r = true ->
  ceiling (requestsPerSecond r) -> ceiling (requestsPerMinute r) ->
  ceiling (requestsPerHour r) ->
  withinLimits (increment r).
Proof.
  intros Hw Hu Hs Hm Hh.
  destruct (increment_counts r Hw Hu Hs Hm Hh) as (E1 & E2 & E3).
  apply underLimits_true in Hu.
  unfold withinLimits in *. rewrite E1, E2, E3. cbn. lia.
Qed.

(** What a call of [Wait] that admits has done: some polls that only applied
    resets, then, at the instant it returns, a reset, a successful test and
    the increment. [P] is any property of the limiter that resets preserve. *)
Lemma Wait_admission (P : RateLimiter -> Prop) (fuel : nat) (ctx : Context) :
  (forall now r, P r -> P (resetIfNeeded now r)) ->
  forall (t : Z) (r : RateLimiter) (t' : Z) (r' : RateLimiter),
  P r ->
  Wait fuel ctx t r = Some (None, t', r') ->
  exists r0, P r0
    /\ canProceed t' r0 = (true, resetIfNeeded t' r0)
    /\ r' = increment (resetIfNeeded t' r0).
Proof.
  intros HP. induction fuel as [|fuel IH]; intros t r t' r' Hr Hrun; [discriminate|].
  cbn [Wait] in Hrun.
  destruct (Err ctx t); [discriminate|].
  unfold canProceed in Hrun.
  destruct (underLimits (resetIfNeeded t r)) eqn:Hu.
  - injection Hrun as <- <-. exists r. unfold canProceed. rewrite Hu. auto.
  - destruct (selectAfter ctx pollInterval t) as [[cerr|] t1]; [discriminate|].
    eapply IH; [|exact Hrun]. now apply HP.
Qed.

Lemma Wait_config (fuel : nat) (ctx : Context) :
  forall (t : Z) (r : RateLimiter) (res : option error) (t' : Z) (r' : RateLimiter),
  Wait fuel ctx t r = Some (res, t', r') ->
  configuredAs (requestsPerSecond r) (requestsPerMinute r) (requestsPerHour r) r'.
Proof.
  induction fuel as [|fuel IH]; intros t r res t' r' Hrun; [discriminate|].
  cbn [Wait] in Hrun.
  destruct (Err ctx t).
  { injection Hrun as <- <- <-. repeat split. }
  unfold canProceed in Hrun.
  destruct (resetIfNeeded_config t r) as (E1 & E2 & E3).
  destruct (underLimits (resetIfNeeded t r)) eqn:Hu.
  - injection Hrun as <- <- <-. unfold configuredAs, increment. cbn. auto.
  - destruct (selectAfter ctx pollInterval t) as [[cerr|] t1].
    + injection Hrun as <- <- <-. unfold configuredAs. auto.
    + apply IH in Hrun. unfold configuredAs in *. rewrite E1, E2, E3 in Hrun. exact Hrun.
Qed.

Lemma Wait_within (fuel : nat) (ctx : Context) :
  forall (t : Z) (r : RateLimiter) (res : option error) (t' : Z) (r' : RateLimiter),
  ceiling (requestsPerSecond r) -> ceiling (requestsPerMinute r) ->
  ceiling (requestsPerHour r) ->
  withinLimits r ->
  Wait fuel ctx t r = Some (res, t', r') ->
  withinLimits r'.
Proof.
  induction fuel as [|fuel IH]; intros t r res t' r' Hs Hm Hh Hw Hrun; [discriminate|].
  cbn [Wait] in Hrun.
  destruct (Err ctx t).
  { now injection Hrun as <- <- <-. }
  unfold canProceed in Hrun.
  destruct (resetIfNeeded_config t r) as (E1 & E2 & E3).
  pose proof (resetIfNeeded_within t r Hw) as Hw1.
  destruct (underLimits (resetIfNeeded t r)) eqn:Hu.
  - injection Hrun as <- <- <-. apply increment_within; auto; congruence.
  - destruct (selectAfter ctx pollInterval t) as [[cerr|] t1].
    + now injection Hrun as <- <- <-.
    + eapply IH; [| | | |exact Hrun]; auto; congruence.
Qed.

Lemma reachable_config (rps rpm rph : Z) (r : RateLimiter) :
  reachable rps rpm rph r -> configuredAs rps rpm rph r.
Proof.
  induction 1 as [now|r fuel ctx t res t' r' Hr IH Hrun].
  - repeat split.
  - apply Wait_config in Hrun. unfold configuredAs in *.
    destruct IH as (C1 & C2 & C3). rewrite C1, C2, C3 in Hrun. exact Hrun.
Qed.

Lemma reachable_within (rps rpm rph : Z) (r : RateLimiter) :
  ceiling rps -> ceiling rpm -> ceiling rph ->
  reachable rps rpm rph r -> withinLimits r.
Proof.
  intros Hs Hm Hh. induction 1 as [now|r fuel ctx t res t' r' Hr IH Hrun].
  - unfold withinLimits, NewRateLimiter, ceiling in *. cbn. lia.
  - destruct (reachable_config _ _ _ _ Hr) as (C1 & C2 & C3).
    eapply Wait_within; [| | | |exact Hrun]; auto; congruence.
Qed.

(** The counts after a reset, window by window. *)
Lemma resetIfNeeded_counts (now : Z) (r : RateLimiter) :
  secCount (resetIfNeeded now r) = (if secReset r <? now then 0 else secCount r)
  /\ minCount (resetIfNeeded now r) = (if minReset r <? now then 0 else minCount r)
  /\ hrCount (resetIfNeeded now r) = (if hrReset r <? now then 0 else hrCount r).
Proof.
  unfold_limiter. split_resets. all: repeat split; first [reflexivity|lia].
Qed.

Lemma resetIfNeeded_resets (now : Z) (r : RateLimiter) :
  secReset (resetIfNeeded now r)
    = (if secReset r <? now then now + 1 * Second else secReset r)
  /\ minReset (resetIfNeeded now r)
    = (if minReset r <? now then now + 1 * Minute else minReset r)
  /\ hrReset (resetIfNeeded now r)
    = (if hrReset r <? now then now + 1 * Hour else hrReset r).
Proof.
  unfold_limiter. split_resets. all: repeat split; first [reflexivity|lia].
Qed.

(** A reset at [t] does not show in the counts once a reset at a later
    instant [t'] is applied. *)
Lemma resetIfNeeded_absorbs (t t' : Z) (r : RateLimiter) :
  t <= t' ->
  secCount (resetIfNeeded t' (resetIfNeeded t r)) = secCount (resetIfNeeded t' r)
  /\ minCount (resetIfNeeded t' (resetIfNeeded t r)) = minCount (resetIfNeeded t' r)
  /\ hrCount (resetIfNeeded t' (resetIfNeeded t r)) = hrCount (resetIfNeeded t' r).
Proof.
  intros Hle.
  destruct (resetIfNeeded_counts t' (resetIfNeeded t r)) as (A1 & A2 & A3).
  destruct (resetIfNeeded_counts t' r) as (B1 & B2 & B3).
  destruct (resetIfNeeded_counts t r) as (C1 & C2 & C3).
  destruct (resetIfNeeded_resets t r) as (D1 & D2 & D3).
  rewrite A1, A2, A3, B1, B2, B3, C1, C2, C3, D1, D2, D3.
  repeat split.
  - destruct (Z.ltb_spec (secReset r) t); destruct (Z.ltb_spec (secReset r) t');
      repeat match goal with
      | |- context [?a <? ?b] => destruct (Z.ltb_spec a b)
      end; lia.
  - destruct (Z.ltb_spec (minReset r) t); destruct (Z.ltb_spec (minReset r) t');
      repeat match goal with
      | |- context [?a <? ?b] => destruct (Z.ltb_spec a b)
      end; lia.
  - destruct (Z.ltb_spec (hrReset r) t); destruct (Z.ltb_spec (hrReset r) t');
      repeat match goal with
      | |- context [?a <? ?b] => destruct (Z.ltb_spec a b)
      end; lia.
Qed.

Lemma afterPolls_config (k : nat) :
  forall (t : Z) (r : RateLimiter),
  requestsPerSecond (afterPolls t k r) = requestsPerSecond r
  /\ requestsPerMinute (afterPolls t k r) = requestsPerMinute r
  /\ requestsPerHour (afterPolls t k r) = requestsPerHour r.
Proof.
  induction k as [|k IH]; intros t r; [auto|]. cbn [afterPolls].
  destruct (IH (t + pollInterval) (resetIfNeeded t r)) as (E1 & E2 & E3).
  destruct (resetIfNeeded_config t r) as (F1 & F2 & F3).
  repeat split; congruence.
Qed.

(** The polls that did not admit leave no trace in the counts that the
    admitting poll sees: they are those of the limiter [Wait] was given,
    with the resets pending at the instant of admission applied. *)
Lemma afterPolls_counts (t' : Z) (k : nat) :
  forall (t : Z) (r : RateLimiter),
  t + Z.of_nat k * pollInterval <= t' ->
  secCount (resetIfNeeded t' (afterPolls t k r)) = secCount (resetIfNeeded t' r)
  /\ minCount (resetIfNeeded t' (afterPolls t k r)) = minCount (resetIfNeeded t' r)
  /\ hrCount (resetIfNeeded t' (afterPolls t k r)) = hrCount (resetIfNeeded t' r).
Proof.
  assert (Hp : 0 < pollInterval) by reflexivity.
  induction k as [|k IH]; intros t r Hle; [auto|]. cbn [afterPolls].
  rewrite Nat2Z.inj_succ in Hle.
  destruct (IH (t + pollInterval) (resetIfNeeded t r)) as (E1 & E2 & E3); [lia|].
  destruct (resetIfNeeded_absorbs t t' r) as (F1 & F2 & F3); [nia|].
  repeat split; congruence.
Qed.

(** A call of [Wait] that admits returns at one of its poll instants, and
    what it returns is the limiter it held then, reset and incremented. *)
Lemma Wait_admission_polls (fuel : nat) (ctx : Context) :
  forall (t : Z) (r : RateLimiter) (t' : Z) (r' : RateLimiter),
  Wait fuel ctx t r = Some (None, t', r') ->
  exists k : nat,
    t' = t + Z.of_nat k * pollInterval
    /\ underLimits (resetIfNeeded t' (afterPolls t k r)) = true
    /\ r' = increment (resetIfNeeded t' (afterPolls t k r)).
Proof.
  induction fuel as [|fuel IH]; intros t r t' r' Hrun; [discriminate|].
  cbn [Wait] in Hrun.
  destruct (Err ctx t); [discriminate|].
  unfold canProceed in Hrun.
  destruct (underLimits (resetIfNeeded t r)) eqn:Hu.
  - injection Hrun as <- <-. exists 0%nat. cbn [afterPolls]. repeat split; [lia|exact Hu].
  - unfold selectAfter in Hrun. change (Z.max 0 pollInterval) with pollInterval in Hrun.
    assert (Hnext : Wait fuel ctx (t + pollInterval) (resetIfNeeded t r)
                    = Some (None, t', r')).
    { destruct (firesAt ctx) as [f|]; [|exact Hrun].
      destruct (f <=? t + pollInterval); [discriminate|exact Hrun]. }
    apply IH in Hnext. destruct Hnext as (k & Ht & Hunder & Hincr).
    exists (S k). cbn [afterPolls]. rewrite Nat2Z.inj_succ.
    repeat split; [lia|exact Hunder|exact Hincr].
Qed.

(** C4. A limiter made with non-negative ceilings and then used by any
    sequence of calls of [Wait], one at a time: its counts never exceed the
    ceilings, before or after a pending reset is applied; and when a further
    call of [Wait] on it returns nil, it does so at one of its poll instants,
    where the limiter it held (the one it was given, after the resets of
    the polls that did not admit), its pending resets applied, had all
    three counts strictly below their ceilings at once, and the call left
    each of the three counts exactly one higher than that, which is one
    higher than the count of the limiter it was given with the resets
    pending at the instant of admission applied. *)
Theorem Wait_sequence_respects_limits (rps rpm rph : Z) (r : RateLimiter) :
  ceiling rps -> ceiling rpm -> ceiling rph ->
  reachable rps rpm rph r ->
  (secCount r <= rps /\ minCount r <= rpm /\ hrCount r <= rph)
  /\ (forall now, secCount (resetIfNeeded now r) <= rps
                  /\ minCount (resetIfNeeded now r) <= rpm
                  /\ hrCount (resetIfNeeded now r) <= rph)
  /\ (forall fuel ctx t t' r',
        Wait fuel ctx t r = Some (None, t', r') ->
        exists k : nat,
          let r0 := afterPolls t k r in
          let r1 := resetIfNeeded t' r0 in
          t' = t + Z.of_nat k * pollInterval
          /\ canProceed t' r0 = (true, r1)
          /\ (secCount r1 < rps /\ minCount r1 < rpm /\ hrCount r1 < rph)
          /\ r' = increment r1
          /\ (secCount r' = secCount r1 + 1
              /\ minCount r' = minCount r1 + 1
              /\ hrCount r' = hrCount r1 + 1)
          /\ (secCount (resetIfNeeded t' r) < rps
              /\ minCount (resetIfNeeded t' r) < rpm
              /\ hrCount (resetIfNeeded t' r) < rph)
          /\ (secCount r' = secCount (resetIfNeeded t' r) + 1
              /\ minCount r' = minCount (resetIfNeeded t' r) + 1
              /\ hrCount r' = hrCount (resetIfNeeded t' r) + 1)).
Proof.
  intros Hs Hm Hh Hr.
  pose proof (reachable_within _ _ _ _ Hs Hm Hh Hr) as Hw.
  destruct (reachable_config _ _ _ _ Hr) as (C1 & C2 & C3).
  split; [|split].
  - unfold withinLimits in Hw. lia.
  - intros now. pose proof (resetIfNeeded_within now r Hw) as Hw1.
    destruct (resetIfNeeded_config now r) as (E1 & E2 & E3).
    unfold withinLimits in Hw1. lia.
  - intros fuel ctx t t' r' Hrun.
    destruct (Wait_admission_polls fuel ctx t r t' r' Hrun) as (k & Ht & Hu & Hincr).
    exists k. cbn zeta.
    destruct (afterPolls_counts t' k t r ltac:(lia)) as (K1 & K2 & K3).
    destruct (afterPolls_config k t r) as (G1 & G2 & G3).
    destruct (resetIfNeeded_config t' (afterPolls t k r)) as (E1 & E2 & E3).
    destruct (resetIfNeeded_config t' r) as (F1 & F2 & F3).
    pose proof (resetIfNeeded_within t' r Hw) as Hw1.
    assert (Hw2 : withinLimits (resetIfNeeded t' (afterPolls t k r))).
    { unfold withinLimits in *. rewrite K1, K2, K3, E1, E2, E3, G1, G2, G3.
      rewrite F1, F2, F3 in Hw1. exact Hw1. }
    pose proof Hu as Hlt. apply underLimits_true in Hlt.
    destruct (increment_counts (resetIfNeeded t' (afterPolls t k r)) Hw2 Hu)
      as (I1 & I2 & I3); [congruence..|].
    split; [exact Ht|].
    split; [unfold canProceed; now rewrite Hu|].
    split; [lia|].
    split; [exact Hincr|].
    subst r'. split; [auto|]. split; lia.
Qed.

(** [Wait] returns nil or the error of its signal, which has fired by then. *)
Lemma Wait_result (fuel : nat) (ctx : Context) :
  forall (t : Z) (r : RateLimiter) (res : option error) (t' : Z) (r' : RateLimiter),
  Wait fuel ctx t r = Some (res, t', r') ->
  res = None \/ (res = Some (ctxErr ctx) /\ Err ctx t' = Some (ctxErr ctx)).
Proof.
  induction fuel as [|fuel IH]; intros t r res t' r' Hrun; [discriminate|].
  cbn [Wait] in Hrun.
  destruct (Err ctx t) as [e|] eqn:He.
  { injection Hrun as <- <- <-. right.
    unfold Err in *. destruct (firesAt ctx) as [f|]; [|discriminate].
    destruct (f <=? t); [|discriminate]. injection He as <-. auto. }
  unfold canProceed in Hrun.
  destruct (underLimits (resetIfNeeded t r)).
  { injection Hrun as <- <- <-. now left. }
  unfold selectAfter in Hrun.
  destruct (firesAt ctx) as [f|] eqn:Hf.
  - destruct (f <=? t + Z.max 0 pollInterval) eqn:Hle.
    + injection Hrun as <- <- <-. right. split; [reflexivity|].
      unfold Err. rewrite Hf.
      destruct (Z.leb_spec f (Z.max t f)); [reflexivity|lia].
    + eapply IH; exact Hrun.
  - eapply IH; exact Hrun.
Qed.

(** C6. Whatever the signal, the limiter and the instant, a call of [Wait]
    that returns has returned nil, and then it has admitted the caller (the
    test of [canProceed] succeeded and [increment] ran), or it has returned
    the error of its signal, which has fired by then. No other error value
    comes out of it, and none that would say "rate limited". *)
Theorem Wait_error_is_signal (fuel : nat) (ctx : Context) (t : Z) (r : RateLimiter)
    (res : option error) (t' : Z) (r' : RateLimiter) :
  Wait fuel ctx t r = Some (res, t', r') ->
  (res = None
   /\ exists r0, canProceed t' r0 = (true, resetIfNeeded t' r0)
                 /\ r' = increment (resetIfNeeded t' r0))
  \/ (res = Some (ctxErr ctx) /\ Err ctx t' = Some (ctxErr ctx)).
Proof.
  intros Hrun. destruct (Wait_result _ _ _ _ _ _ _ Hrun) as [->|Hsignal].
  - left. split; [reflexivity|].
    destruct (Wait_admission (fun _ => True) fuel ctx (fun _ _ _ => I) t r t' r' I Hrun)
      as (r0 & _ & Hcan & Hincr).
    exists r0. auto.
  - right. exact Hsignal.
Qed.

Lemma Wait_unfold (fuel : nat) (ctx : Context) (t : Z) (r : RateLimiter) :
  Wait (S fuel) ctx t r =
  match Err ctx t with
  | Some err => Some (Some err, t, r)
  | None =>
    if underLimits (resetIfNeeded t r)
    then Some (None, t, increment (resetIfNeeded t r))
    else match selectAfter ctx pollInterval t with
         | (Some cerr, t') => Some (Some cerr, t', resetIfNeeded t r)
         | (None, t') => Wait fuel ctx t' (resetIfNeeded t r)
         end
  end.
Proof. reflexivity. Qed.

(** More fuel does not change what [Wait] returns. *)
Lemma Wait_fuel_mono (fuel fuel' : nat) (ctx : Context) :
  forall (t : Z) (r : RateLimiter) (res : option error * Z * RateLimiter),
  (fuel <= fuel')%nat ->
  Wait fuel ctx t r = Some res -> Wait fuel' ctx t r = Some res.
Proof.
  revert fuel'. induction fuel as [|fuel IH]; intros fuel' t r res Hle Hrun;
    [discriminate|].
  destruct fuel' as [|fuel']; [lia|].
  cbn [Wait] in *.
  destruct (Err ctx t); [exact Hrun|].
  destruct (canProceed t r) as [ok r1].
  destruct ok; [exact Hrun|].
  destruct (selectAfter ctx pollInterval t) as [[cerr|] t1]; [exact Hrun|].
  apply IH; [lia|exact Hrun].
Qed.

Lemma Wait_admits_within (ctx : Context) :
  firesAt ctx = None ->
  forall (n : nat) (t : Z) (r : RateLimiter),
  positiveLimits r ->
  opensWithin (Z.of_nat n * pollInterval) t r ->
  exists t' r', Wait (S n) ctx t r = Some (None, t', r').
Proof.
  intros Hctx. induction n as [|n IH]; intros t r Hpos Hopen.
  - rewrite Wait_unfold, Err_never by assumption.
    assert (Hu : underLimits (resetIfNeeded t r) = true).
    { apply underLimits_true. unfold opensWithin, positiveLimits in *.
      unfold_limiter. split_resets. all: lia. }
    rewrite Hu. eauto.
  - rewrite Wait_unfold, Err_never by assumption.
    destruct (underLimits (resetIfNeeded t r)) eqn:Hu; [eauto|].
    rewrite selectAfter_never by assumption.
    apply IH.
    + destruct (resetIfNeeded_config t r) as (E1 & E2 & E3).
      unfold positiveLimits in *. lia.
    + clear IH Hu. unfold opensWithin, positiveLimits, pollInterval, Millisecond in *.
      unfold_limiter. split_resets. all: lia.
Qed.

(** With positive ceilings and a signal that never fires, [Wait] admits
    after finitely many polls. *)
Lemma Wait_admits (ctx : Context) (t : Z) (r : RateLimiter) :
  firesAt ctx = None -> positiveLimits r ->
  exists fuel t' r', Wait fuel ctx t r = Some (None, t', r').
Proof.
  intros Hctx Hpos.
  set (far := Z.max 0 (Z.max (secReset r) (Z.max (minReset r) (hrReset r)) - t)).
  exists (S (Z.to_nat (far / pollInterval + 1))).
  apply Wait_admits_within; [assumption..|].
  assert (Hp : 0 < pollInterval) by reflexivity.
  assert (Hq : 0 <= far / pollInterval) by (apply Z.div_pos; lia).
  pose proof (Z.mul_succ_div_gt far pollInterval Hp) as Hfar.
  rewrite Z2Nat.id by lia.
  unfold opensWithin. subst far. lia.
Qed.

(** With a ceiling of 0 on the second window nothing is ever admitted, and
    [Wait] returns the error of its signal at the instant it fires (or at
    once when it has fired already). *)
Lemma Wait_blocked_until_fired (ctx : Context) (f : Z) :
  firesAt ctx = Some f ->
  forall (n : nat) (t : Z) (r : RateLimiter),
  requestsPerSecond r = 0 -> 0 <= secCount r ->
  f - t <= Z.of_nat n * pollInterval ->
  exists r', Wait (S n) ctx t r = Some (Some (ctxErr ctx), Z.max t f, r').
Proof.
  intros Hf. induction n as [|n IH]; intros t r Hlim Hcnt Hn.
  - rewrite Wait_unfold. unfold Err. rewrite Hf.
    destruct (Z.leb_spec f t); [|lia].
    replace (Z.max t f) with t by lia. eauto.
  - rewrite Wait_unfold. unfold Err. rewrite Hf.
    destruct (Z.leb_spec f t).
    { replace (Z.max t f) with t by lia. eauto. }
    assert (Hu : underLimits (resetIfNeeded t r) = false).
    { unfold underLimits.
      assert (Hb : (secCount (resetIfNeeded t r)
                    <? requestsPerSecond (resetIfNeeded t r)) = false).
      { apply Z.ltb_ge. unfold_limiter. split_resets. all: lia. }
      now rewrite Hb. }
    rewrite Hu. unfold selectAfter. rewrite Hf.
    change (Z.max 0 pollInterval) with pollInterval.
    destruct (Z.leb_spec f (t + pollInterval)); [eauto|].
    destruct (IH (t + pollInterval) (resetIfNeeded t r)) as (r' & Hrun).
    + destruct (resetIfNeeded_config t r) as (E1 & _). congruence.
    + unfold_limiter. split_resets. all: lia.
    + lia.
    + rewrite Hrun. replace (Z.max (t + pollInterval) f) with (Z.max t f) by lia.
      eauto.
Qed.

(** *** Callers that share the limiter *)

(** A caller that has the limiter to itself goes through the steps of the
    sequential [Wait] and ends where it ends. *)
Lemma lone_caller_follows_Wait (fuel : nat) (ctx : Context) :
  forall (t : Z) (r : RateLimiter) (res : option error) (t' : Z) (r' : RateLimiter),
  Wait fuel ctx t r = Some (res, t', r') ->
  exists schedule,
    Forall (fun ev : nat * Z => ev.1 = 0%nat) schedule
    /\ Concurrent.run
         (Concurrent.mkSystem r [Concurrent.mkCaller ctx Concurrent.AtTop]) schedule
       = Concurrent.mkSystem r' [Concurrent.mkCaller ctx (Concurrent.Returned res)].
Proof.
  induction fuel as [|fuel IH]; intros t r res t' r' Hrun; [discriminate|].
  rewrite Wait_unfold in Hrun.
  destruct (Err ctx t) as [e|] eqn:He.
  { injection Hrun as <- <- <-. exists [(0%nat, t)]. split; [repeat constructor|].
    cbn. unfold Concurrent.step, Concurrent.stepCaller. cbn. now rewrite He. }
  destruct (underLimits (resetIfNeeded t r)) eqn:Hu.
  { injection Hrun as <- <- <-. exists [(0%nat, t); (0%nat, t)].
    split; [repeat constructor|].
    cbn. unfold Concurrent.step, Concurrent.stepCaller, canProceed. cbn.
    rewrite He, Hu. reflexivity. }
  destruct (selectAfter ctx pollInterval t) as [[cerr|] t1] eqn:Hsel.
  - injection Hrun as <- <- <-. exists [(0%nat, t); (0%nat, t1)].
    split; [repeat constructor|].
    cbn. unfold Concurrent.step, Concurrent.stepCaller, canProceed. cbn.
    rewrite He, Hu. cbn. rewrite Hsel, Z.leb_refl. reflexivity.
  - destruct (IH _ _ _ _ _ Hrun) as (schedule & Hlone & Hsched).
    exists ((0%nat, t) :: (0%nat, t1) :: schedule).
    split; [repeat constructor; exact Hlone|].
    assert (Hsteps :
      Concurrent.step
        (Concurrent.step
           (Concurrent.mkSystem r [Concurrent.mkCaller ctx Concurrent.AtTop]) (0%nat, t))
        (0%nat, t1)
      = Concurrent.mkSystem (resetIfNeeded t r)
          [Concurrent.mkCaller ctx Concurrent.AtTop]).
    { unfold Concurrent.step, Concurrent.stepCaller, canProceed. cbn.
      rewrite He, Hu. cbn. rewrite Hsel, Z.leb_refl. reflexivity. }
    unfold Concurrent.run in *. cbn [fold_left]. rewrite Hsteps. exact Hsched.
Qed.

(** When each caller finishes before the next one starts, the second caller
    of the example finds the window full and polls. *)
Lemma polite_callers_are_limited :
  let sys := Concurrent.run twoCallers politeSchedule in
  map Concurrent.at_ (Concurrent.callers sys)
    = [Concurrent.Returned None; Concurrent.Polling 3000]
  /\ secCount (Concurrent.shared sys) = 1.
Proof. split; reflexivity. Qed.

(** C5, at a failing input. The test of [canProceed] and the update of
    [increment] are two critical sections, and [Wait] releases the mutex
    between them. With a ceiling of one request per window and two callers,
    the schedule in which both run [canProceed] before either runs
    [increment] has both tests succeed on a count of 0: both calls of [Wait]
    return nil within the same window, and every count ends at 2, above its
    ceiling of 1. *)
Theorem racing_callers_over_admit :
  let sys := Concurrent.run twoCallers racingSchedule in
  map Concurrent.at_ (Concurrent.callers sys)
    = [Concurrent.Returned None; Concurrent.Returned None]
  /\ Concurrent.admitted sys = 2%nat
  /\ requestsPerSecond (Concurrent.shared sys) = 1
  /\ secCount (Concurrent.shared sys) = 2
  /\ minCount (Concurrent.shared sys) = 2
  /\ hrCount (Concurrent.shared sys) = 2
  /\ Forall (fun ev => ev.2 < secReset (Concurrent.shared sys)) racingSchedule.
Proof.
  repeat split; try reflexivity.
  repeat constructor.
Qed.

(** ** The loop of [Do], whatever the attempt function *)

Section RetryerInvariants.

Context {St : Type}.
Variable r : Retryer.
Variable ctx : Context.
Variable fn : @Attempt St.

Lemma loop_unfold (n : nat) (k : Z) (lastErr : option error) (t : Z) (s : St) :
  loop r ctx fn (S n) k lastErr t s =
  match Err ctx t with
  | Some err => Some (Some err, t, s)
  | None =>
    match fn t s with
    | None => None
    | Some (shouldRetry, err, t1, s1) =>
      if negb shouldRetry then Some (err, t1, s1)
      else if k <? maxRetries r then
        match selectAfter ctx (calculateBackoff r k) t1 with
        | (Some cerr, t2) => Some (Some cerr, t2, s1)
        | (None, t2) => loop r ctx fn n (k + 1) err t2 s1
        end
      else loop r ctx fn n (k + 1) err t1 s1
    end
  end.
Proof. reflexivity. Qed.

(** A property of the state that every call of the attempt function
    preserves holds when the loop returns. *)
Lemma loop_preserves (P : St -> Prop) :
  (forall t s b e t1 s1, P s -> fn t s = Some (b, e, t1, s1) -> P s1) ->
  forall n k lastErr t s res t' s',
  P s -> loop r ctx fn n k lastErr t s = Some (res, t', s') -> P s'.
Proof.
  intros Hfn. induction n as [|n IH]; intros k lastErr t s res t' s' HP Hrun.
  - cbn in Hrun. now injection Hrun as <- <- <-.
  - rewrite loop_unfold in Hrun.
    destruct (Err ctx t); [now injection Hrun as <- <- <-|].
    destruct (fn t s) as [[[[b e] t1] s1]|] eqn:Hcall; [|discriminate].
    pose proof (Hfn _ _ _ _ _ _ HP Hcall) as HP1.
    destruct (negb b); [now injection Hrun as <- <- <-|].
    destruct (k <? maxRetries r).
    + destruct (selectAfter ctx (calculateBackoff r k) t1) as [[cerr|] t2].
      * now injection Hrun as <- <- <-.
      * eapply IH; eassumption.
    + eapply IH; eassumption.
Qed.

(** A counter that every call of the attempt function leaves alone or
    raises by one is raised by at most the number of iterations. *)
Lemma loop_counts (count : St -> nat) :
  (forall t s b e t1 s1, fn t s = Some (b, e, t1, s1) ->
     (count s <= count s1 <= count s + 1)%nat) ->
  forall n k lastErr t s res t' s',
  loop r ctx fn n k lastErr t s = Some (res, t', s') ->
  (count s <= count s' <= count s + n)%nat.
Proof.
  intros Hfn. induction n as [|n IH]; intros k lastErr t s res t' s' Hrun.
  - cbn in Hrun. injection Hrun as <- <- <-. lia.
  - rewrite loop_unfold in Hrun.
    destruct (Err ctx t); [injection Hrun as <- <- <-; lia|].
    destruct (fn t s) as [[[[b e] t1] s1]|] eqn:Hcall; [|discriminate].
    pose proof (Hfn _ _ _ _ _ _ Hcall) as Hc.
    destruct (negb b); [injection Hrun as <- <- <-; lia|].
    destruct (k <? maxRetries r).
    + destruct (selectAfter ctx (calculateBackoff r k) t1) as [[cerr|] t2].
      * injection Hrun as <- <- <-. lia.
      * apply IH in Hrun. lia.
    + apply IH in Hrun. lia.
Qed.

End RetryerInvariants.

(** The loop does not depend on the attempt function beyond its results. *)
Lemma loop_mono {St : Type} (r : Retryer) (ctx : Context) (fn fn' : @Attempt St) :
  (forall t s x, fn t s = Some x -> fn' t s = Some x) ->
  forall n k lastErr t s res,
  loop r ctx fn n k lastErr t s = Some res ->
  loop r ctx fn' n k lastErr t s = Some res.
Proof.
  intros Hfn. induction n as [|n IH]; intros k lastErr t s res Hrun; [exact Hrun|].
  rewrite loop_unfold in *.
  destruct (Err ctx t); [exact Hrun|].
  destruct (fn t s) as [[[[b e] t1] s1]|] eqn:Hcall; [|discriminate].
  rewrite (Hfn _ _ _ Hcall).
  destruct (negb b); [exact Hrun|].
  destruct (k <? maxRetries r).
  - destruct (selectAfter ctx (calculateBackoff r k) t1) as [[cerr|] t2];
      [exact Hrun|now apply IH].
  - now apply IH.
Qed.

(** ** The client *)

Import httpclient.

Lemma alter_last {A : Type} (f : A -> A) (l : list A) (x : A) :
  alter f (length l) (l ++ [x]) = l ++ [f x].
Proof. induction l as [|y l IH]; cbn; [reflexivity|]. now rewrite IH. Qed.

Section ClientDo.

Variable c : Client.
Variable ctx : Context.

(** The three ways in which the closure returns: the limiter refused, the
    transport failed, or a response came back. *)
Lemma attempt_inv (fuel : nat) (t : Z) (s : World * option nat)
    (b : bool) (e : option error) (t1 : Z) (s1 : World * option nat) :
  attempt c fuel ctx t s = Some (b, e, t1, s1) ->
  (b = false /\ e = Some (ctxErr ctx) /\ Err ctx t1 = Some (ctxErr ctx)
   /\ calls s1.1 = calls s.1 /\ heap s1.1 = heap s.1 /\ s1.2 = s.2)
  \/ (exists err, outcome (httpClient c (calls s.1)) = inl err
        /\ b = true /\ e = Some err
        /\ calls s1.1 = S (calls s.1) /\ heap s1.1 = heap s.1 /\ s1.2 = None)
  \/ (exists status body, outcome (httpClient c (calls s.1)) = inr (status, body)
        /\ b = retryable c status /\ e = None
        /\ calls s1.1 = S (calls s.1)
        /\ heap s1.1 = heap s.1 ++ [mkResponse status body (retryable c status)]
        /\ s1.2 = Some (length (heap s.1))).
Proof.
  unfold attempt. intros Hcall.
  destruct (Wait fuel ctx t (limiter s.1)) as [[[res tw] lw]|] eqn:Hwait;
    [|discriminate].
  destruct res as [err|].
  - injection Hcall as <- <- <- <-. left.
    destruct (Wait_result _ _ _ _ _ _ _ Hwait) as [Hnil|[Herr Hfired]];
      [discriminate|].
    cbn. repeat split; auto.
  - right.
    destruct (outcome (httpClient c (calls s.1))) as [err|[status body]] eqn:Hout.
    + injection Hcall as <- <- <- <-. left. exists err. cbn. repeat split.
    + right. exists status, body.
      destruct (retryable c status) eqn:Hretry;
        injection Hcall as <- <- <- <-; cbn; repeat split; auto.
      now rewrite alter_last.
Qed.

Lemma attempt_calls (fuel : nat) (t : Z) (s : World * option nat)
    (b : bool) (e : option error) (t1 : Z) (s1 : World * option nat) :
  attempt c fuel ctx t s = Some (b, e, t1, s1) ->
  (calls s.1 <= calls s1.1 <= calls s.1 + 1)%nat.
Proof.
  intros Hcall. apply attempt_inv in Hcall.
  destruct Hcall as [(_ & _ & _ & E & _)|[(err & _ & _ & _ & E & _)
    |(status & body & _ & _ & _ & E & _)]]; lia.
Qed.

Lemma attempt_recorded (c0 fuel : nat) (t : Z) (s : World * option nat)
    (b : bool) (e : option error) (t1 : Z) (s1 : World * option nat) :
  recorded c c0 s ->
  attempt c fuel ctx t s = Some (b, e, t1, s1) ->
  recorded c c0 s1.
Proof.
  intros Hrec Hcall. apply attempt_inv in Hcall.
  assert (Hc0 : (c0 <= calls s.1)%nat).
  { destruct Hrec as [(E & _)|(E & _)]; lia. }
  destruct Hcall as [(_ & _ & _ & Ec & Eh & Er)|[(err & Hout & _ & _ & Ec & Eh & Er)
    |(status & body & Hout & _ & _ & Ec & Eh & Er)]].
  - unfold recorded, lastExchange in *. rewrite Ec, Eh, Er. exact Hrec.
  - right. split; [lia|]. unfold lastExchange. rewrite Ec. cbn [pred].
    now rewrite Hout.
  - right. split; [lia|]. unfold lastExchange. rewrite Ec. cbn [pred].
    rewrite Hout. exists (length (heap s.1)). split; [exact Er|].
    rewrite Eh. now apply list_lookup_middle.
Qed.

Lemma attempt_mono (fuel fuel' : nat) (t : Z) (s : World * option nat)
    (x : bool * option error * Z * (World * option nat)) :
  (fuel <= fuel')%nat ->
  attempt c fuel ctx t s = Some x -> attempt c fuel' ctx t s = Some x.
Proof.
  unfold attempt. intros Hle Hcall.
  destruct (Wait fuel ctx t (limiter s.1)) as [resw|] eqn:Hwait; [|discriminate].
  now rewrite (Wait_fuel_mono fuel fuel' ctx _ _ _ Hle Hwait).
Qed.

Lemma Do_inv (fuel : nat) (t : Z) (w : World) (resp : option nat)
    (err : option error) (t' : Z) (w' : World) :
  httpclient.Do c fuel ctx t w = Some (resp, err, t', w') ->
  loop (retryer c) ctx (attempt c fuel ctx) (Z.to_nat (attempts (retryer c)))
       0 None t (w, None)
  = Some (err, t', (w', resp)).
Proof.
  unfold httpclient.Do, retry.Do. intros Hrun.
  destruct (loop _ _ _ _ _ _ _ _) as [[[e1 t1] [w1 r1]]|]; [|discriminate].
  cbn in Hrun. now injection Hrun as <- <- <- <-.
Qed.

Lemma Do_recorded (fuel : nat) (t : Z) (w : World) (resp : option nat)
    (err : option error) (t' : Z) (w' : World) :
  httpclient.Do c fuel ctx t w = Some (resp, err, t', w') ->
  recorded c (calls w) (w', resp).
Proof.
  intros Hrun. apply Do_inv in Hrun.
  refine (loop_preserves _ _ _ (recorded c (calls w)) _ _ _ _ _ _ _ _ _ _ Hrun).
  - intros t0 s b e t1 s1 Hrec Hcall. eapply attempt_recorded; eassumption.
  - left. split; reflexivity.
Qed.

Lemma Do_calls (fuel : nat) (t : Z) (w : World) (resp : option nat)
    (err : option error) (t' : Z) (w' : World) :
  httpclient.Do c fuel ctx t w = Some (resp, err, t', w') ->
  (calls w <= calls w' <= calls w + Z.to_nat (attempts (retryer c)))%nat.
Proof.
  intros Hrun. apply Do_inv in Hrun.
  refine (loop_counts _ _ _ (fun s => calls s.1) _ _ _ _ _ _ _ _ _ Hrun).
  intros t0 s b e t1 s1 Hcall. eapply attempt_calls; eassumption.
Qed.

(** When every exchange is answered with a retryable status, a loop that
    makes as many calls as it has iterations returns nil. *)
Lemma loop_exhausted (fuel : nat) :
  alwaysRetryableStatus c ->
  forall n k lastErr t s res t' s',
  k + Z.of_nat n = maxRetries (retryer c) + 1 ->
  loop (retryer c) ctx (attempt c fuel ctx) n k lastErr t s = Some (res, t', s') ->
  calls s'.1 = (calls s.1 + n)%nat ->
  res = match n with O => lastErr | S _ => None end.
Proof.
  intros Hall. induction n as [|n IH]; intros k lastErr t s res t' s' Hk Hrun Hcalls.
  - cbn in Hrun. now injection Hrun as <- <- <-.
  - rewrite loop_unfold in Hrun.
    destruct (Err ctx t); [injection Hrun as <- <- <-; lia|].
    destruct (attempt c fuel ctx t s) as [[[[b e] t1] s1]|] eqn:Hcall; [|discriminate].
    apply attempt_inv in Hcall.
    destruct Hcall as [(-> & _ & _ & Ec & _)|[(err & Hout & _)
      |(status & body & Hout & -> & -> & Ec & _)]].
    + cbn in Hrun. injection Hrun as <- <- <-. lia.
    + destruct (Hall (calls s.1)) as (st & bd & Hout' & _). congruence.
    + destruct (Hall (calls s.1)) as (st & bd & Hout' & Hretry).
      assert (status = st) by congruence. subst st. rewrite Hretry in Hrun.
      cbn [negb] in Hrun.
      destruct (Z.ltb_spec k (maxRetries (retryer c))).
      * destruct (selectAfter ctx (calculateBackoff (retryer c) k) t1) as [[cerr|] t2].
        -- injection Hrun as <- <- <-. lia.
        -- apply IH in Hrun; [|lia|lia]. rewrite Hrun. now destruct n.
      * apply IH in Hrun; [|lia|lia]. rewrite Hrun. now destruct n.
Qed.

End ClientDo.

(** With positive ceilings and a signal that never fires, [Do] returns once
    each [Wait] is given enough fuel. *)
Lemma loop_total (c : Client) (ctx : Context) :
  firesAt ctx = None ->
  forall n k lastErr t s,
  positiveLimits (limiter s.1) ->
  exists fuel res,
    loop (retryer c) ctx (attempt c fuel ctx) n k lastErr t s = Some res.
Proof.
  intros Hctx. induction n as [|n IH]; intros k lastErr t s Hpos.
  - exists 0%nat. cbn. eauto.
  - destruct (Wait_admits ctx t (limiter s.1) Hctx Hpos) as (fuel1 & tw & lw & Hwait).
    assert (Hposw : positiveLimits lw).
    { destruct (Wait_config _ _ _ _ _ _ _ Hwait) as (E1 & E2 & E3).
      unfold positiveLimits in *. lia. }
    assert (Hcall : exists b e t1 s1,
               attempt c fuel1 ctx t s = Some (b, e, t1, s1) /\ limiter s1.1 = lw).
    { unfold attempt. rewrite Hwait.
      destruct (outcome (httpClient c (calls s.1))) as [err|[status body]]; [eauto 8|].
      destruct (retryable c status); eauto 8. }
    destruct Hcall as (b & e & t1 & s1 & Hcall & Hlim).
    rewrite <- Hlim in Hposw.
    set (t2 := if k <? maxRetries (retryer c)
               then t1 + Z.max 0 (calculateBackoff (retryer c) k) else t1).
    destruct (IH (k + 1) e t2 s1 Hposw) as (fuel2 & res & Hrest).
    exists (Nat.max fuel1 fuel2).
    rewrite loop_unfold, Err_never by assumption.
    rewrite (attempt_mono c ctx fuel1 (Nat.max fuel1 fuel2) _ _ _ ltac:(lia) Hcall).
    destruct (negb b); [eauto|].
    exists res.
    assert (Hrest' : loop (retryer c) ctx (attempt c (Nat.max fuel1 fuel2) ctx)
                          n (k + 1) e t2 s1 = Some res).
    { eapply loop_mono; [|exact Hrest].
      intros t0 s0 x. apply attempt_mono. lia. }
    subst t2. destruct (k <? maxRetries (retryer c)); [|exact Hrest'].
    now rewrite selectAfter_never.
Qed.

Lemma Do_total (c : Client) (ctx : Context) (t : Z) (w : World) :
  firesAt ctx = None -> positiveLimits (limiter w) ->
  exists fuel res, httpclient.Do c fuel ctx t w = Some res.
Proof.
  intros Hctx Hpos.
  destruct (loop_total c ctx Hctx (Z.to_nat (attempts (retryer c))) 0 None t
              (w, None) Hpos) as (fuel & [[e t'] s'] & Hrun).
  exists fuel. unfold httpclient.Do, retry.Do. rewrite Hrun. eauto.
Qed.

(** One iteration in which the transport answers with a response, under a
    signal that never fires. *)
Lemma loop_step_response (c : Client) (ctx : Context) (fuel : nat) (n : nat)
    (k : Z) (lastErr : option error) (t : Z) (s : World * option nat)
    (status : Z) (body : string) (res : option error * Z * (World * option nat)) :
  firesAt ctx = None ->
  outcome (httpClient c (calls s.1)) = inr (status, body) ->
  loop (retryer c) ctx (attempt c fuel ctx) (S n) k lastErr t s = Some res ->
  exists t1 s1,
    calls s1.1 = S (calls s.1)
    /\ heap s1.1 = heap s.1 ++ [mkResponse status body (retryable c status)]
    /\ s1.2 = Some (length (heap s.1))
    /\ if retryable c status
       then exists t2,
         loop (retryer c) ctx (attempt c fuel ctx) n (k + 1) None t2 s1 = Some res
       else res = (None, t1, s1).
Proof.
  intros Hctx Hout Hrun. rewrite loop_unfold, Err_never in Hrun by assumption.
  destruct (attempt c fuel ctx t s) as [[[[b e] t1] s1]|] eqn:Hcall; [|discriminate].
  apply attempt_inv in Hcall.
  destruct Hcall as [(_ & _ & Hfired & _)|[(err & Hout' & _)
    |(st & bd & Hout' & -> & -> & Ec & Eh & Er)]].
  - rewrite Err_never in Hfired by assumption. discriminate.
  - congruence.
  - assert (st = status /\ bd = body) as [-> ->] by (split; congruence).
    exists t1, s1. repeat (split; [assumption|]).
    destruct (retryable c status); cbn [negb] in Hrun.
    + destruct (k <? maxRetries (retryer c)); [|eauto].
      rewrite selectAfter_never in Hrun by assumption. eauto.
    + now injection Hrun as <-.
Qed.

(** C3. A client whose transport answers every exchange with a response
    whose status is in the configured set: when a call of [Do] has returned
    after [maxRetries + 1] exchanges, it has returned a nil error and the
    response of the last of them. *)
Theorem Do_exhausted_returns_last_response (c : Client) (fuel : nat)
    (ctx : Context) (t : Z) (w : World) (resp : option nat) (err : option error)
    (t' : Z) (w' : World) :
  Int64.in_unsigned (maxRetries (retryer c)) ->
  alwaysRetryableStatus c ->
  httpclient.Do c fuel ctx t w = Some (resp, err, t', w') ->
  Z.of_nat (calls w') = Z.of_nat (calls w) + (maxRetries (retryer c) + 1) ->
  err = None
  /\ exists p status body,
       resp = Some p
       /\ outcome (httpClient c (pred (calls w'))) = inr (status, body)
       /\ retryable c status = true
       /\ heap w' !! p = Some (mkResponse status body true).
Proof.
  intros HR Hall Hrun Hcalls.
  pose proof (Do_calls _ _ _ _ _ _ _ _ _ Hrun) as Hle.
  pose proof (Do_recorded _ _ _ _ _ _ _ _ _ Hrun) as Hrec.
  apply Do_inv in Hrun.
  assert (Hatt : attempts (retryer c) = maxRetries (retryer c) + 1).
  { unfold Int64.in_unsigned in HR. unfold attempts, Int64.wrapU in *.
    pose proof (Z.mod_pos_bound (maxRetries (retryer c) + 1) Int64.modulus
                  ltac:(reflexivity)) as Hb.
    pose proof (Z.mod_le (maxRetries (retryer c) + 1) Int64.modulus
                  ltac:(lia) ltac:(reflexivity)) as Hm.
    lia. }
  split.
  - pose proof (loop_exhausted c ctx fuel Hall (Z.to_nat (attempts (retryer c)))
                  0 None t (w, None) err t' (w', resp)) as Hex.
    cbn [fst snd] in Hex. unfold Int64.in_unsigned in HR.
    rewrite Hex; [|lia|exact Hrun|lia].
    destruct (Z.to_nat (attempts (retryer c))); reflexivity.
  - destruct Hrec as [(E & _)|(_ & Hlast)].
    { cbn [fst] in E. unfold Int64.in_unsigned in HR. lia. }
    unfold lastExchange in Hlast. cbn [fst snd] in Hlast.
    destruct (Hall (pred (calls w'))) as (status & body & Hout & Hretry).
    rewrite Hout in Hlast. destruct Hlast as (p & -> & Hp).
    exists p, status, body. rewrite Hretry in Hp. auto.
Qed.

(** C10. Whenever [Do] returns after an exchange whose response has a
    status in the configured set (the retries are exhausted, or the signal
    has fired since), what it returns is that response, and the body of that
    response has been closed. *)
Theorem Do_returns_closed_body (c : Client) (fuel : nat) (ctx : Context) (t : Z)
    (w : World) (resp : option nat) (err : option error) (t' : Z) (w' : World)
    (status : Z) (body : string) :
  httpclient.Do c fuel ctx t w = Some (resp, err, t', w') ->
  (calls w < calls w')%nat ->
  outcome (httpClient c (pred (calls w'))) = inr (status, body) ->
  retryable c status = true ->
  exists p rsp,
    resp = Some p /\ heap w' !! p = Some rsp
    /\ StatusCode rsp = status /\ bodyClosed rsp = true.
Proof.
  intros Hrun Hcalls Hout Hretry.
  destruct (Do_recorded _ _ _ _ _ _ _ _ _ Hrun) as [(E & _)|(_ & Hlast)].
  { cbn [fst] in E. lia. }
  unfold lastExchange in Hlast. cbn [fst snd] in Hlast.
  rewrite Hout, Hretry in Hlast. destruct Hlast as (p & -> & Hp).
  exists p, (mkResponse status body true). auto.
Qed.

(** C9. Retrying on 500 and 502, with a loop of at least three iterations,
    positive ceilings and a signal that never fires: if the transport
    answers the next three exchanges with 500, 500 and 200, [Do] returns
    after exactly these three exchanges, with a nil error and the response
    of status 200, its body open; the bodies of the two responses it
    dropped are closed. *)
Theorem Do_retries_500_500_200 (c : Client) (ctx : Context) (t : Z) (w : World)
    (b0 b1 b2 : string) :
  retryOnStatus c = [500; 502] ->
  3 <= attempts (retryer c) ->
  firesAt ctx = None ->
  positiveLimits (limiter w) ->
  outcome (httpClient c (calls w)) = inr (500, b0) ->
  outcome (httpClient c (S (calls w))) = inr (500, b1) ->
  outcome (httpClient c (S (S (calls w)))) = inr (200, b2) ->
  exists fuel p t' w',
    httpclient.Do c fuel ctx t w = Some (Some p, None, t', w')
    /\ calls w' = (calls w + 3)%nat
    /\ heap w' = heap w ++ [mkResponse 500 b0 true; mkResponse 500 b1 true;
                            mkResponse 200 b2 false]
    /\ heap w' !! p = Some (mkResponse 200 b2 false).
Proof.
  intros Hset Hbudget Hctx Hpos H0 H1 H2.
  assert (R500 : retryable c 500 = true) by (unfold retryable; now rewrite Hset).
  assert (R200 : retryable c 200 = false) by (unfold retryable; now rewrite Hset).
  destruct (Do_total c ctx t w Hctx Hpos) as (fuel & [[[resp err] t'] w'] & Hrun).
  exists fuel. pose proof Hrun as Hloop. apply Do_inv in Hloop.
  destruct (Z.to_nat (attempts (retryer c))) as [|[|[|n]]] eqn:En; [lia..|].
  apply loop_step_response with (status := 500) (body := b0) in Hloop;
    [|assumption..].
  destruct Hloop as (t1 & s1 & Ec1 & Eh1 & Er1 & Hloop).
  rewrite R500 in Hloop. destruct Hloop as (t2 & Hloop). cbn [fst] in *.
  apply loop_step_response with (status := 500) (body := b1) in Hloop;
    [|assumption|now rewrite Ec1].
  destruct Hloop as (t3 & s2 & Ec2 & Eh2 & Er2 & Hloop).
  rewrite R500 in Hloop. destruct Hloop as (t4 & Hloop).
  apply loop_step_response with (status := 200) (body := b2) in Hloop;
    [|assumption|now rewrite Ec2, Ec1].
  destruct Hloop as (t5 & s3 & Ec3 & Eh3 & Er3 & Hloop).
  rewrite R200 in Hloop. injection Hloop as -> -> Hs. subst s3.
  cbn [fst snd] in *.
  exists (length (heap s2.1)), t5, w'. rewrite Er3 in Hrun.
  split; [exact Hrun|]. split; [lia|].
  assert (Hheap : heap w' = heap w ++ [mkResponse 500 b0 true; mkResponse 500 b1 true;
                                       mkResponse 200 b2 false]).
  { rewrite Eh3, Eh2, Eh1, R500, R200, <- !app_assoc. reflexivity. }
  split; [exact Hheap|].
  rewrite Eh3, R200. now apply list_lookup_middle.
Qed.

(** X14. With a ceiling of 0 and a loop of at least one iteration, [Do] returns
    the error of its signal at the instant the signal fires (at once when it
    has fired already), without a response and without an exchange; when the
    closure is reached, it reports that no retry is wanted. *)
Lemma Do_blocked_returns_signal (c : Client) (ctx : Context) (d t : Z) (w : World) :
  firesAt ctx = Some d ->
  requestsPerSecond (limiter w) = 0 -> 0 <= secCount (limiter w) ->
  1 <= attempts (retryer c) ->
  exists fuel w',
    httpclient.Do c fuel ctx t w = Some (None, Some (ctxErr ctx), Z.max t d, w')
    /\ calls w' = calls w /\ heap w' = heap w
    /\ (Err ctx t = None ->
        attempt c fuel ctx t (w, None)
        = Some (false, Some (ctxErr ctx), Z.max t d, (w', None))).
Proof.
  intros Hd Hlim Hcnt Hbudget.
  set (far := Z.max 0 (d - t)).
  set (n := Z.to_nat (far / pollInterval + 1)).
  assert (Hn : d - t <= Z.of_nat n * pollInterval).
  { assert (Hp : 0 < pollInterval) by reflexivity.
    assert (Hq : 0 <= far / pollInterval) by (apply Z.div_pos; lia).
    pose proof (Z.mul_succ_div_gt far pollInterval Hp) as Hfar.
    subst n. rewrite Z2Nat.id by lia. subst far. lia. }
  destruct (Wait_blocked_until_fired ctx d Hd n t (limiter w) Hlim Hcnt Hn)
    as (r' & Hwait).
  assert (Hcall : attempt c (S n) ctx t (w, None)
                  = Some (false, Some (ctxErr ctx), Z.max t d,
                          (mkWorld r' (calls w) (heap w), None))).
  { unfold attempt. cbn [fst snd]. now rewrite Hwait. }
  exists (S n). unfold httpclient.Do, retry.Do.
  destruct (Z.to_nat (attempts (retryer c))) as [|m] eqn:Em; [lia|].
  rewrite loop_unfold.
  destruct (Err ctx t) as [e|] eqn:He.
  - exists w. unfold Err in He. rewrite Hd in He.
    destruct (Z.leb_spec d t); [|discriminate]. injection He as <-.
    replace (Z.max t d) with t by lia. cbn. repeat split. discriminate.
  - exists (mkWorld r' (calls w) (heap w)). rewrite Hcall. cbn. auto.
Qed.

(** C7, at a failing input. A client made by [NewClient] with every ceiling
    at 0 and [MaxRetries] the largest [uint], called with a deadline: the
    loop of [retryer.Do] has no iteration, so the limiter is never asked and
    the deadline never looked at, and [Do] returns at once, with a nil
    response and a nil error instead of [context.DeadlineExceeded]. *)
Theorem Do_max_uint_ignores_deadline (dflt tr : Transport) (t0 d t : Z)
    (fuel n : nat) (h : list Response) :
  let made := NewClient dflt t0 (blockedConfig tr Int64.max_unsigned) in
  httpclient.Do made.1 fuel (WithDeadline d) t (mkWorld made.2 n h)
  = Some (None, None, t, mkWorld made.2 n h).
Proof. reflexivity. Qed.

(** ** The tests of the packages, replayed *)

(** [TestRetryer_CalculateBackoff]. *)
Lemma test_CalculateBackoff :
  map (calculateBackoff (NewRetryer 5 (100 * Millisecond) (1 * Second))) [0; 1; 2; 3; 4]
  = [100 * Millisecond; 200 * Millisecond; 400 * Millisecond; 800 * Millisecond;
     1 * Second].
Proof. reflexivity. Qed.

(** [TestRateLimiter_CanProceed_SecondLimitReached]. *)
Lemma test_CanProceed_SecondLimitReached :
  let r0 := NewRateLimiter 0 1 100 1000 in
  (canProceed 1000 r0).1 = true
  /\ (canProceed 2000 (increment (canProceed 1000 r0).2)).1 = false.
Proof. split; reflexivity. Qed.

(** [TestRateLimiter_MinimalLimits]: one admission, then the deadline. *)
Lemma test_MinimalLimits :
  exists r1 r2,
    Wait 1 Background 1000 (NewRateLimiter 0 1 1 1) = Some (None, 1000, r1)
    /\ Wait 3 (WithDeadline (100 * Millisecond)) 2000 r1
       = Some (Some DeadlineExceeded, 100 * Millisecond, r2).
Proof. do 2 eexists. split; reflexivity. Qed.

(** [TestClient_Do_MaxRetriesExceeded]: three exchanges, the last response,
    no error. *)
Lemma test_MaxRetriesExceeded :
  exists t' w',
    httpclient.Do impatientClient 1 Background 0 freshWorld = Some (Some 2%nat, None, t', w')
    /\ calls w' = 3%nat
    /\ StatusCode <$> heap w' !! 2%nat = Some 500.
Proof. do 2 eexists. split; [vm_compute; reflexivity|]. split; reflexivity. Qed.

(** [TestClient_Do_RateLimitError], with the retry budget of the test. *)
Lemma test_RateLimitError :
  let made := NewClient brokenServer 0 (blockedConfig brokenServer 3) in
  exists w',
    httpclient.Do made.1 2 (WithDeadline (50 * Millisecond)) 0 (mkWorld made.2 0 [])
    = Some (None, Some DeadlineExceeded, 50 * Millisecond, w')
    /\ calls w' = 0%nat.
Proof. eexists. split; reflexivity. Qed.

(** ** The theorems at concrete inputs *)

Lemma Wait_sequence_respects_limits_witness :
  (ceiling 2 /\ ceiling 100 /\ ceiling 1000 /\ reachable 2 100 1000 afterTwoAdmissions)
  /\ Wait 30 Background (3 * Millisecond) afterTwoAdmissions
     = Some (None, 1003000000,
             mkRateLimiter 1 3 3 2003000000 60000000000 3600000000000 2 100 1000)
  /\ secCount afterTwoAdmissions <= 2
  /\ (secCount (resetIfNeeded 1003000000 afterTwoAdmissions) < 2
      /\ minCount (resetIfNeeded 1003000000 afterTwoAdmissions) < 100
      /\ hrCount (resetIfNeeded 1003000000 afterTwoAdmissions) < 1000)
  /\ (1 = secCount (resetIfNeeded 1003000000 afterTwoAdmissions) + 1
      /\ 3 = minCount (resetIfNeeded 1003000000 afterTwoAdmissions) + 1
      /\ 3 = hrCount (resetIfNeeded 1003000000 afterTwoAdmissions) + 1).
Proof.
  assert (Hreach : reachable 2 100 1000 afterTwoAdmissions).
  { eapply (reachable_wait _ _ _ _ 1%nat Background (2 * Millisecond)).
    - eapply (reachable_wait _ _ _ _ 1%nat Background (1 * Millisecond)).
      + apply (reachable_new _ _ _ 0).
      + reflexivity.
    - reflexivity. }
  assert (H2 : ceiling 2) by (unfold ceiling; vm_compute; split; discriminate).
  assert (H100 : ceiling 100) by (unfold ceiling; vm_compute; split; discriminate).
  assert (H1000 : ceiling 1000) by (unfold ceiling; vm_compute; split; discriminate).
  split; [auto|].
  split; [vm_compute; reflexivity|].
  destruct (Wait_sequence_respects_limits 2 100 1000 afterTwoAdmissions
              H2 H100 H1000 Hreach) as (Hle & _ & Hadm).
  split; [apply Hle|].
  destruct (Hadm 30%nat Background (3 * Millisecond) 1003000000
              (mkRateLimiter 1 3 3 2003000000 60000000000 3600000000000 2 100 1000)
              ltac:(vm_compute; reflexivity))
    as (k & _ & _ & _ & _ & _ & Hbelow & Hone).
  split; [exact Hbelow|exact Hone].
Defined.

Lemma Wait_error_is_signal_witness :
  Wait 3 (WithDeadline (150 * Millisecond)) 0 (NewRateLimiter 0 0 0 0)
  = Some (Some DeadlineExceeded, 150 * Millisecond, NewRateLimiter 0 0 0 0)
  /\ ((Some DeadlineExceeded = None
       /\ exists r0,
            canProceed (150 * Millisecond) r0
            = (true, resetIfNeeded (150 * Millisecond) r0)
            /\ NewRateLimiter 0 0 0 0
               = increment (resetIfNeeded (150 * Millisecond) r0))
      \/ (Some DeadlineExceeded = Some (ctxErr (WithDeadline (150 * Millisecond)))
          /\ Err (WithDeadline (150 * Millisecond)) (150 * Millisecond)
             = Some (ctxErr (WithDeadline (150 * Millisecond))))).
Proof.
  split; [reflexivity|].
  apply (Wait_error_is_signal 3 (WithDeadline (150 * Millisecond)) 0
           (NewRateLimiter 0 0 0 0) (Some DeadlineExceeded) (150 * Millisecond)
           (NewRateLimiter 0 0 0 0)).
  reflexivity.
Defined.

Lemma Do_exhausted_returns_last_response_witness :
  Int64.in_unsigned (maxRetries (retryer impatientClient))
  /\ alwaysRetryableStatus impatientClient
  /\ exists t' w',
       httpclient.Do impatientClient 1 Background 0 freshWorld
       = Some (Some 2%nat, None, t', w')
       /\ Z.of_nat (calls w')
          = Z.of_nat (calls freshWorld) + (maxRetries (retryer impatientClient) + 1)
       /\ (@None error = None
           /\ exists p status body,
                Some 2%nat = Some p
                /\ outcome (httpClient impatientClient (pred (calls w')))
                   = inr (status, body)
                /\ retryable impatientClient status = true
                /\ heap w' !! p = Some (mkResponse status body true)).
Proof.
  assert (HR : Int64.in_unsigned (maxRetries (retryer impatientClient))).
  { vm_compute. split; discriminate. }
  assert (Hall : alwaysRetryableStatus impatientClient).
  { intros k. exists 500, "Error"%string. split; reflexivity. }
  split; [exact HR|]. split; [exact Hall|].
  eexists _, _. split; [vm_compute; reflexivity|]. split; [reflexivity|].
  eapply (Do_exhausted_returns_last_response impatientClient 1 Background 0 freshWorld).
  - exact HR.
  - exact Hall.
  - vm_compute. reflexivity.
  - reflexivity.
Defined.

Lemma Do_returns_closed_body_witness :
  exists t' w',
    httpclient.Do impatientClient 1 Background 0 freshWorld
    = Some (Some 2%nat, None, t', w')
    /\ (calls freshWorld < calls w')%nat
    /\ outcome (httpClient impatientClient (pred (calls w'))) = inr (500, "Error"%string)
    /\ retryable impatientClient 500 = true
    /\ exists p rsp,
         Some 2%nat = Some p /\ heap w' !! p = Some rsp
         /\ StatusCode rsp = 500 /\ bodyClosed rsp = true.
Proof.
  eexists _, _. split; [vm_compute; reflexivity|].
  split; [vm_compute; lia|]. split; [reflexivity|]. split; [reflexivity|].
  eapply (Do_returns_closed_body impatientClient 1 Background 0 freshWorld
            (Some 2%nat) None _ _ 500 "Error"%string).
  - vm_compute. reflexivity.
  - vm_compute. lia.
  - reflexivity.
  - reflexivity.
Defined.

Lemma Do_retries_500_500_200_witness :
  retryOnStatus recoveringClient = [500; 502]
  /\ 3 <= attempts (retryer recoveringClient)
  /\ firesAt Background = None
  /\ positiveLimits (limiter freshWorld)
  /\ outcome (httpClient recoveringClient (calls freshWorld)) = inr (500, "Error"%string)
  /\ outcome (httpClient recoveringClient (S (calls freshWorld))) = inr (500, "Error"%string)
  /\ outcome (httpClient recoveringClient (S (S (calls freshWorld))))
     = inr (200, "Success"%string)
  /\ exists fuel p t' w',
       httpclient.Do recoveringClient fuel Background 0 freshWorld
       = Some (Some p, None, t', w')
       /\ calls w' = (calls freshWorld + 3)%nat
       /\ heap w' = heap freshWorld
                    ++ [mkResponse 500 "Error" true; mkResponse 500 "Error" true;
                        mkResponse 200 "Success" false]
       /\ heap w' !! p = Some (mkResponse 200 "Success" false).
Proof.
  assert (Hbudget : 3 <= attempts (retryer recoveringClient)).
  { vm_compute. discriminate. }
  assert (Hpos : positiveLimits (limiter freshWorld)).
  { unfold positiveLimits. cbn. lia. }
  repeat (split; [first [reflexivity|assumption]|]).
  apply (Do_retries_500_500_200 recoveringClient Background 0 freshWorld
           "Error" "Error" "Success"); first [reflexivity|assumption].
Defined.

(** * Further properties *)

(** ** The retryer *)

Lemma Err_fired (ctx : Context) (t : Z) (e : error) :
  Err ctx t = Some e ->
  e = ctxErr ctx /\ exists f, firesAt ctx = Some f /\ f <= t.
Proof.
  unfold Err. destruct (firesAt ctx) as [f|]; [|discriminate].
  destruct (Z.leb_spec f t); [|discriminate].
  intros [= <-]. eauto.
Qed.

Lemma selectAfter_fired (ctx : Context) (d t : Z) (e : error) (t' : Z) :
  selectAfter ctx d t = (Some e, t') ->
  e = ctxErr ctx
  /\ Err ctx t' = Some (ctxErr ctx)
  /\ exists f, firesAt ctx = Some f /\ f <= t + Z.max 0 d /\ t' = Z.max t f.
Proof.
  unfold selectAfter, Err. destruct (firesAt ctx) as [f|]; [|discriminate].
  destruct (Z.leb_spec f (t + Z.max 0 d)); [|discriminate].
  intros [= <- <-]. split; [reflexivity|]. split.
  - destruct (Z.leb_spec f (Z.max t f)); [reflexivity|lia].
  - eauto.
Qed.

Lemma selectAfter_slept (ctx : Context) (d t t' : Z) :
  selectAfter ctx d t = (None, t') -> t' = t + Z.max 0 d /\ Err ctx t' = None.
Proof.
  unfold selectAfter, Err. destruct (firesAt ctx) as [f|].
  - destruct (Z.leb_spec f (t + Z.max 0 d)); [discriminate|].
    intros [= <-]. split; [reflexivity|].
    destruct (Z.leb_spec f (t + Z.max 0 d)); [lia|reflexivity].
  - now intros [= <-].
Qed.

Lemma attempts_range (r : Retryer) : 0 <= attempts r < Int64.modulus.
Proof. unfold attempts, Int64.wrapU. apply Z.mod_pos_bound. reflexivity. Qed.

Section RetryerMore.

Context {St : Type}.
Variable r : Retryer.
Variable ctx : Context.
Variable fn : @Attempt St.

Lemma logged_inv (t : Z) (s : St) (log : list (option error)) (b : bool)
    (e : option error) (t1 : Z) (sl : St * list (option error)) :
  logged fn t (s, log) = Some (b, e, t1, sl) ->
  fn t s = Some (b, e, t1, sl.1) /\ sl.2 = log ++ [e].
Proof.
  unfold logged. cbn [fst snd].
  destruct (fn t s) as [[[[b0 e0] t0] s0]|]; [|discriminate].
  intros [= <- <- <- <-]. auto.
Qed.

(** Where the error returned by the loop comes from. *)
Lemma loop_logged_origin :
  forall n k lastErr t s log0 e t' s' log',
  loop r ctx (logged fn) n k lastErr t (s, log0) = Some (e, t', (s', log')) ->
  (e = Some (ctxErr ctx) /\ Err ctx t' = Some (ctxErr ctx))
  \/ (log' = log0 /\ e = lastErr)
  \/ (exists pre, log' = pre ++ [e]).
Proof.
  induction n as [|n IH]; intros k lastErr t s log0 e t' s' log' Hrun.
  - cbn in Hrun. injection Hrun as <- <- <- <-. auto.
  - rewrite loop_unfold in Hrun.
    destruct (Err ctx t) as [ce|] eqn:He.
    { injection Hrun as <- <- <- <-. left.
      destruct (Err_fired _ _ _ He) as (-> & _). auto. }
    destruct (logged fn t (s, log0)) as [[[[b e1] t1] [s1 log1]]|] eqn:Hcall;
      [|discriminate].
    apply logged_inv in Hcall. destruct Hcall as (_ & Hlog). cbn [snd] in Hlog.
    subst log1.
    assert (Hrest : forall t2,
      loop r ctx (logged fn) n (k + 1) e1 t2 (s1, log0 ++ [e1])
        = Some (e, t', (s', log')) ->
      (e = Some (ctxErr ctx) /\ Err ctx t' = Some (ctxErr ctx))
      \/ (log' = log0 /\ e = lastErr)
      \/ (exists pre, log' = pre ++ [e])).
    { intros t2 Hloop. apply IH in Hloop.
      destruct Hloop as [Hc|[(-> & ->)|Hp]]; eauto. }
    destruct (negb b).
    { injection Hrun as <- <- <- <-. eauto. }
    destruct (k <? maxRetries r).
    + destruct (selectAfter ctx (calculateBackoff r k) t1) as [[cerr|] t2] eqn:Hsel.
      * injection Hrun as <- <- <- <-. left.
        destruct (selectAfter_fired _ _ _ _ _ Hsel) as (-> & Hf & _). auto.
      * eauto.
    + eauto.
Qed.

(** X4. Whatever the attempt function and the signal, [Do] calls the
    attempt function at most as many times as the range loop has
    iterations, that is [maxRetries + 1] reduced modulo 2^64. *)
Theorem Do_call_budget (t : Z) (s : St) (e : option error) (t' : Z) (s' : St)
    (log : list (option error)) :
  retry.Do r ctx (logged fn) t (s, []) = Some (e, t', (s', log)) ->
  Z.of_nat (length log) <= attempts r.
Proof.
  unfold retry.Do. intros Hrun.
  pose proof (loop_counts r ctx (logged fn) (fun sl => length sl.2)) as Hcount.
  specialize (Hcount ltac:(
    intros t0 [s0 l0] b e0 t1 sl Hcall; apply logged_inv in Hcall;
    destruct Hcall as (_ & ->); cbn; rewrite length_app; cbn; lia)).
  apply Hcount in Hrun. cbn in Hrun.
  pose proof (attempts_range r). lia.
Qed.

(** X5. [Do] does not make up errors: what it returns is the error of its
    signal, which has fired by then, or what the last call of the attempt
    function returned, or nil when the attempt function was never called. *)
Theorem Do_error_origin (t : Z) (s : St) (e : option error) (t' : Z) (s' : St)
    (log : list (option error)) :
  retry.Do r ctx (logged fn) t (s, []) = Some (e, t', (s', log)) ->
  (e = Some (ctxErr ctx) /\ Err ctx t' = Some (ctxErr ctx))
  \/ (log = [] /\ e = None)
  \/ last log = Some e.
Proof.
  unfold retry.Do. intros Hrun. apply loop_logged_origin in Hrun.
  destruct Hrun as [Hc|[Hn|(pre & ->)]]; auto.
  right. right. apply last_snoc.
Qed.

(** X6. A signal that fires while [Do] sleeps between the first and the
    second attempt ends the sleep: [Do] returns the error of the signal at
    the instant it fires, not at the end of the delay, and the attempt
    function is not called again. *)
Theorem Do_cancelled_in_backoff (t : Z) (s : St) (e : option error) (t1 : Z)
    (s1 : St) (f : Z) :
  1 <= maxRetries r < Int64.max_unsigned ->
  Err ctx t = None ->
  fn t s = Some (true, e, t1, s1) ->
  firesAt ctx = Some f ->
  f <= t1 + Z.max 0 (calculateBackoff r 0) ->
  retry.Do r ctx fn t s = Some (Some (ctxErr ctx), Z.max t1 f, s1).
Proof.
  intros HR He Hcall Hf Hle. unfold retry.Do.
  assert (Hatt : attempts r = maxRetries r + 1).
  { unfold attempts. apply wrapU_small. unfold Int64.in_unsigned. lia. }
  destruct (Z.to_nat (attempts r)) as [|n] eqn:En; [lia|].
  rewrite loop_unfold, He, Hcall. cbn [negb].
  destruct (Z.ltb_spec 0 (maxRetries r)); [|lia].
  unfold selectAfter. rewrite Hf.
  destruct (Z.leb_spec f (t1 + Z.max 0 (calculateBackoff r 0))); [reflexivity|lia].
Qed.

(** X7. With [maxRetries] equal to 0 there is one attempt and no sleep:
    [Do] returns what the attempt function returned, at the instant it
    returned, whether or not it asked for a retry. *)
Theorem Do_without_retries (t : Z) (s : St) (b : bool) (e : option error)
    (t1 : Z) (s1 : St) :
  maxRetries r = 0 ->
  Err ctx t = None ->
  fn t s = Some (b, e, t1, s1) ->
  retry.Do r ctx fn t s = Some (e, t1, s1).
Proof.
  intros HR He Hcall. unfold retry.Do, attempts. rewrite HR.
  change (Z.to_nat (Int64.wrapU (0 + 1))) with 1%nat.
  rewrite loop_unfold, He, Hcall, HR. destruct b; reflexivity.
Qed.

End RetryerMore.

(** ** The rate limiter *)

(** A window that is not overdue is left alone. *)
Lemma resetIfNeeded_keeps (now : Z) (r : RateLimiter) :
  (now <= secReset r ->
   secCount (resetIfNeeded now r) = secCount r
   /\ secReset (resetIfNeeded now r) = secReset r)
  /\ (now <= minReset r ->
      minCount (resetIfNeeded now r) = minCount r
      /\ minReset (resetIfNeeded now r) = minReset r)
  /\ (now <= hrReset r ->
      hrCount (resetIfNeeded now r) = hrCount r
      /\ hrReset (resetIfNeeded now r) = hrReset r).
Proof. unfold_limiter. split_resets. all: repeat split; intros; lia. Qed.

Lemma resetIfNeeded_bounds (now : Z) (r : RateLimiter) :
  now <= secReset (resetIfNeeded now r)
  /\ now <= minReset (resetIfNeeded now r)
  /\ now <= hrReset (resetIfNeeded now r).
Proof.
  unfold_limiter. split_resets. all: unfold Hour, Minute, Second; lia.
Qed.

Lemma resetIfNeeded_overdue (now : Z) (r : RateLimiter) :
  (secReset r < now ->
   secCount (resetIfNeeded now r) = 0
   /\ secReset (resetIfNeeded now r) = now + Second)
  /\ (minReset r < now ->
      minCount (resetIfNeeded now r) = 0
      /\ minReset (resetIfNeeded now r) = now + Minute)
  /\ (hrReset r < now ->
      hrCount (resetIfNeeded now r) = 0
      /\ hrReset (resetIfNeeded now r) = now + Hour).
Proof.
  unfold_limiter. split_resets.
  all: unfold Hour, Minute, Second; repeat split; intros; lia.
Qed.

(** With no window overdue, [resetIfNeeded] does nothing. *)
Lemma resetIfNeeded_idle (now : Z) (r : RateLimiter) :
  now <= secReset r -> now <= minReset r -> now <= hrReset r ->
  resetIfNeeded now r = r.
Proof.
  intros Hs Hm Hh. unfold resetIfNeeded.
  unfold resetSec. rewrite (proj2 (Z.ltb_ge (secReset r) now)) by lia.
  unfold resetMin. rewrite (proj2 (Z.ltb_ge (minReset r) now)) by lia.
  unfold resetHr. rewrite (proj2 (Z.ltb_ge (hrReset r) now)) by lia.
  reflexivity.
Qed.

(** X8. After [resetIfNeeded] no window is overdue: each of the three
    reset instants is at the clock reading or later; an overdue window
    restarts at 0 for its full length, whatever happens to the other two;
    and a second call with the same clock reading changes nothing. *)
Theorem resetIfNeeded_settles (now : Z) (r : RateLimiter) :
  let r' := resetIfNeeded now r in
  (now <= secReset r' /\ now <= minReset r' /\ now <= hrReset r')
  /\ (secReset r < now -> secCount r' = 0 /\ secReset r' = now + Second)
  /\ (minReset r < now -> minCount r' = 0 /\ minReset r' = now + Minute)
  /\ (hrReset r < now -> hrCount r' = 0 /\ hrReset r' = now + Hour)
  /\ resetIfNeeded now r' = r'.
Proof.
  cbn zeta.
  destruct (resetIfNeeded_bounds now r) as (Bs & Bm & Bh).
  destruct (resetIfNeeded_overdue now r) as (Os & Om & Oh).
  repeat split; try lia; try (now apply Os); try (now apply Om); try (now apply Oh).
  now apply resetIfNeeded_idle.
Qed.

Lemma resetIfNeeded_consumes_nothing (now : Z) (r : RateLimiter) :
  nothingConsumed r (resetIfNeeded now r).
Proof. unfold nothingConsumed. unfold_limiter. split_resets. all: auto. Qed.

Lemma Wait_time (fuel : nat) (ctx : Context) :
  forall t r res t' r', Wait fuel ctx t r = Some (res, t', r') -> t <= t'.
Proof.
  induction fuel as [|fuel IH]; intros t r res t' r' Hrun; [discriminate|].
  rewrite Wait_unfold in Hrun.
  destruct (Err ctx t); [injection Hrun as <- <- <-; lia|].
  destruct (underLimits (resetIfNeeded t r)); [injection Hrun as <- <- <-; lia|].
  destruct (selectAfter ctx pollInterval t) as [[cerr|] t1] eqn:Hsel.
  - injection Hrun as <- <- <-.
    destruct (selectAfter_fired _ _ _ _ _ Hsel) as (_ & _ & f & _ & _ & ->). lia.
  - apply selectAfter_slept in Hsel. destruct Hsel as (-> & _).
    apply IH in Hrun. lia.
Qed.

(** X9. A call of [Wait] that returns an error returns it at the instant
    its signal fires (at once when the signal has fired before the call),
    not at the next poll; and it takes nothing from any window: each count
    is what it was, or 0 after a reset. *)
Theorem Wait_cancelled_promptly (fuel : nat) (ctx : Context) (t : Z)
    (r : RateLimiter) (e : error) (t' : Z) (r' : RateLimiter) :
  Wait fuel ctx t r = Some (Some e, t', r') ->
  exists f, firesAt ctx = Some f /\ t' = Z.max t f /\ nothingConsumed r r'.
Proof.
  revert t r. induction fuel as [|fuel IH]; intros t r Hrun; [discriminate|].
  rewrite Wait_unfold in Hrun.
  destruct (Err ctx t) as [ce|] eqn:He.
  { injection Hrun as <- <- <-.
    destruct (Err_fired _ _ _ He) as (_ & f & Hf & Hle).
    exists f. split; [exact Hf|]. split; [lia|].
    unfold nothingConsumed. auto. }
  destruct (underLimits (resetIfNeeded t r)); [discriminate|].
  pose proof (resetIfNeeded_consumes_nothing t r) as Hreset.
  destruct (selectAfter ctx pollInterval t) as [[cerr|] t1] eqn:Hsel.
  - injection Hrun as <- <- <-.
    destruct (selectAfter_fired _ _ _ _ _ Hsel) as (_ & _ & f & Hf & _ & ->).
    eauto.
  - apply selectAfter_slept in Hsel. destruct Hsel as (-> & Hquiet).
    apply IH in Hrun. destruct Hrun as (f & Hf & -> & Hcons).
    exists f. split; [exact Hf|]. split.
    + unfold Err in Hquiet. rewrite Hf in Hquiet.
      destruct (Z.leb_spec f (t + Z.max 0 pollInterval)); [discriminate|].
      assert (0 <= Z.max 0 pollInterval) by lia. lia.
    + unfold nothingConsumed in *. lia.
Qed.

Lemma Wait_admits_within_time (ctx : Context) :
  firesAt ctx = None ->
  forall (n : nat) (t : Z) (r : RateLimiter),
  positiveLimits r ->
  opensWithin (Z.of_nat n * pollInterval) t r ->
  exists t' r', Wait (S n) ctx t r = Some (None, t', r')
                /\ t <= t' <= t + Z.of_nat n * pollInterval.
Proof.
  intros Hctx. induction n as [|n IH]; intros t r Hpos Hopen.
  - rewrite Wait_unfold, Err_never by assumption.
    assert (Hu : underLimits (resetIfNeeded t r) = true).
    { apply underLimits_true. unfold opensWithin, positiveLimits in *.
      unfold_limiter. split_resets. all: lia. }
    rewrite Hu. exists t, (increment (resetIfNeeded t r)). split; [reflexivity|lia].
  - rewrite Wait_unfold, Err_never by assumption.
    destruct (underLimits (resetIfNeeded t r)) eqn:Hu.
    { exists t, (increment (resetIfNeeded t r)). split; [reflexivity|].
      unfold pollInterval, Millisecond. lia. }
    rewrite selectAfter_never by assumption.
    change (Z.max 0 pollInterval) with pollInterval.
    destruct (IH (t + pollInterval) (resetIfNeeded t r)) as (t' & r' & Hrun & Ht).
    + destruct (resetIfNeeded_config t r) as (E1 & E2 & E3).
      unfold positiveLimits in *. lia.
    + clear IH Hu. unfold opensWithin, positiveLimits, pollInterval, Millisecond in *.
      unfold_limiter. split_resets. all: lia.
    + exists t', r'. split; [exact Hrun|].
      assert (0 < pollInterval) by reflexivity.
      rewrite Nat2Z.inj_succ. lia.
Qed.

(** X10. With positive ceilings and a signal that never fires, [Wait]
    admits, and no later than one poll interval after the last of the
    windows that are full has rolled over (at once when none is full, or
    when all that are have rolled over already). *)
Theorem Wait_admits_in_time (ctx : Context) (t M : Z) (r : RateLimiter) :
  firesAt ctx = None -> positiveLimits r -> opensBy M r ->
  exists fuel t' r',
    Wait fuel ctx t r = Some (None, t', r')
    /\ t <= t' <= Z.max t (M + pollInterval).
Proof.
  intros Hctx Hpos Hopen.
  assert (Hp : 0 < pollInterval) by reflexivity.
  destruct (Z.ltb_spec M t) as [Hpast|Hahead].
  - destruct (Wait_admits_within_time ctx Hctx 0 t r Hpos) as (t' & r' & Hrun & Ht).
    { unfold opensWithin, opensBy in *. lia. }
    exists 1%nat, t', r'. split; [exact Hrun|]. lia.
  - set (q := (M - t) / pollInterval).
    assert (Hq : 0 <= q) by (apply Z.div_pos; lia).
    pose proof (Z.mul_succ_div_gt (M - t) pollInterval Hp) as Hgt.
    pose proof (Z.mul_div_le (M - t) pollInterval Hp) as Hle.
    fold q in Hgt, Hle.
    destruct (Wait_admits_within_time ctx Hctx (Z.to_nat (q + 1)) t r Hpos)
      as (t' & r' & Hrun & Ht).
    { rewrite Z2Nat.id by lia. unfold opensWithin, opensBy in *. lia. }
    exists (S (Z.to_nat (q + 1))), t', r'. split; [exact Hrun|].
    rewrite Z2Nat.id in Ht by lia. lia.
Qed.

Lemma Wait_blocked_sec (fuel : nat) (ctx : Context) :
  forall t r t' r',
  requestsPerSecond r <= secCount r -> t <= secReset r ->
  Wait fuel ctx t r = Some (None, t', r') -> secReset r < t'.
Proof.
  induction fuel as [|fuel IH]; intros t r t' r' Hfull Hwin Hrun; [discriminate|].
  rewrite Wait_unfold in Hrun.
  destruct (Err ctx t); [discriminate|].
  destruct (resetIfNeeded_keeps t r) as (Hsec & _).
  destruct (Hsec Hwin) as (Ec & Er).
  destruct (resetIfNeeded_config t r) as (E1 & _).
  destruct (underLimits (resetIfNeeded t r)) eqn:Hu.
  { apply underLimits_true in Hu. lia. }
  destruct (selectAfter ctx pollInterval t) as [[cerr|] t1]; [discriminate|].
  destruct (Z.le_gt_cases t1 (secReset r)).
  - rewrite <- Er. eapply IH; [| |exact Hrun]; lia.
  - apply Wait_time in Hrun. lia.
Qed.

Lemma Wait_blocked_min (fuel : nat) (ctx : Context) :
  forall t r t' r',
  requestsPerMinute r <= minCount r -> t <= minReset r ->
  Wait fuel ctx t r = Some (None, t', r') -> minReset r < t'.
Proof.
  induction fuel as [|fuel IH]; intros t r t' r' Hfull Hwin Hrun; [discriminate|].
  rewrite Wait_unfold in Hrun.
  destruct (Err ctx t); [discriminate|].
  destruct (resetIfNeeded_keeps t r) as (_ & Hmin & _).
  destruct (Hmin Hwin) as (Ec & Er).
  destruct (resetIfNeeded_config t r) as (_ & E2 & _).
  destruct (underLimits (resetIfNeeded t r)) eqn:Hu.
  { apply underLimits_true in Hu. lia. }
  destruct (selectAfter ctx pollInterval t) as [[cerr|] t1]; [discriminate|].
  destruct (Z.le_gt_cases t1 (minReset r)).
  - rewrite <- Er. eapply IH; [| |exact Hrun]; lia.
  - apply Wait_time in Hrun. lia.
Qed.

Lemma Wait_blocked_hr (fuel : nat) (ctx : Context) :
  forall t r t' r',
  requestsPerHour r <= hrCount r -> t <= hrReset r ->
  Wait fuel ctx t r = Some (None, t', r') -> hrReset r < t'.
Proof.
  induction fuel as [|fuel IH]; intros t r t' r' Hfull Hwin Hrun; [discriminate|].
  rewrite Wait_unfold in Hrun.
  destruct (Err ctx t); [discriminate|].
  destruct (resetIfNeeded_keeps t r) as (_ & _ & Hhr).
  destruct (Hhr Hwin) as (Ec & Er).
  destruct (resetIfNeeded_config t r) as (_ & _ & E3).
  destruct (underLimits (resetIfNeeded t r)) eqn:Hu.
  { apply underLimits_true in Hu. lia. }
  destruct (selectAfter ctx pollInterval t) as [[cerr|] t1]; [discriminate|].
  destruct (Z.le_gt_cases t1 (hrReset r)).
  - rewrite <- Er. eapply IH; [| |exact Hrun]; lia.
  - apply Wait_time in Hrun. lia.
Qed.

(** X11. A call of [Wait] that finds a window full (its count at the
    ceiling or above) and not yet overdue does not admit before that window
    has rolled over: when it returns nil, the clock is past the reset
    instant the window had at the call. This holds for each of the three
    windows. *)
Theorem Wait_blocks_until_rollover (fuel : nat) (ctx : Context) (t : Z)
    (r : RateLimiter) (t' : Z) (r' : RateLimiter) :
  Wait fuel ctx t r = Some (None, t', r') ->
  (requestsPerSecond r <= secCount r -> t <= secReset r -> secReset r < t')
  /\ (requestsPerMinute r <= minCount r -> t <= minReset r -> minReset r < t')
  /\ (requestsPerHour r <= hrCount r -> t <= hrReset r -> hrReset r < t').
Proof.
  intros Hrun. repeat split; intros Hfull Hwin.
  - eapply Wait_blocked_sec; eassumption.
  - eapply Wait_blocked_min; eassumption.
  - eapply Wait_blocked_hr; eassumption.
Qed.

Lemma waitEach_room (ctx : Context) :
  firesAt ctx = None ->
  forall (instants : list Z) (r : RateLimiter) (c : Z),
  0 <= secCount r <= c -> 0 <= minCount r <= c -> 0 <= hrCount r <= c ->
  c + Z.of_nat (length instants) <= requestsPerSecond r <= Int64.max_signed ->
  c + Z.of_nat (length instants) <= requestsPerMinute r <= Int64.max_signed ->
  c + Z.of_nat (length instants) <= requestsPerHour r <= Int64.max_signed ->
  exists r',
    waitEach ctx instants r = Some r'
    /\ 0 <= secCount r' <= c + Z.of_nat (length instants)
    /\ 0 <= minCount r' <= c + Z.of_nat (length instants)
    /\ 0 <= hrCount r' <= c + Z.of_nat (length instants).
Proof.
  intros Hctx. induction instants as [|t rest IH]; intros r c Hs Hm Hh Ls Lm Lh.
  - exists r. cbn [waitEach length]. repeat split; lia.
  - cbn [length] in *. rewrite Nat2Z.inj_succ in *.
    cbn [waitEach]. rewrite Wait_unfold, Err_never by assumption.
    destruct (resetIfNeeded_config t r) as (E1 & E2 & E3).
    assert (Hw1 : 0 <= secCount (resetIfNeeded t r) <= c
                  /\ 0 <= minCount (resetIfNeeded t r) <= c
                  /\ 0 <= hrCount (resetIfNeeded t r) <= c).
    { destruct (resetIfNeeded_consumes_nothing t r) as (C1 & C2 & C3). lia. }
    assert (Hu : underLimits (resetIfNeeded t r) = true).
    { apply underLimits_true. lia. }
    rewrite Hu.
    assert (Hinc : secCount (increment (resetIfNeeded t r))
                     = secCount (resetIfNeeded t r) + 1
                   /\ minCount (increment (resetIfNeeded t r))
                     = minCount (resetIfNeeded t r) + 1
                   /\ hrCount (increment (resetIfNeeded t r))
                     = hrCount (resetIfNeeded t r) + 1).
    { unfold increment. cbn.
      rewrite !wrapS_small; [auto| | |];
        unfold Int64.in_signed, Int64.min_signed, Int64.max_signed,
          Int64.half_modulus in *; lia. }
    destruct Hinc as (I1 & I2 & I3).
    assert (Hcfg : requestsPerSecond (increment (resetIfNeeded t r))
                     = requestsPerSecond r
                   /\ requestsPerMinute (increment (resetIfNeeded t r))
                     = requestsPerMinute r
                   /\ requestsPerHour (increment (resetIfNeeded t r))
                     = requestsPerHour r).
    { unfold increment. cbn. auto. }
    destruct Hcfg as (G1 & G2 & G3).
    destruct (IH (increment (resetIfNeeded t r)) (c + 1)) as (r' & Hrun & Hb);
      [lia..|].
    exists r'. split; [exact Hrun|]. lia.
Qed.

(** X12. A limiter made with ceilings of at least [n] admits [n] calls of
    [Wait] in a row without making any of them wait, whenever they come;
    afterwards no count exceeds [n]. *)
Theorem fresh_limiter_admits_burst (ctx : Context) (instants : list Z)
    (t0 rps rpm rph : Z) :
  firesAt ctx = None ->
  Z.of_nat (length instants) <= rps <= Int64.max_signed ->
  Z.of_nat (length instants) <= rpm <= Int64.max_signed ->
  Z.of_nat (length instants) <= rph <= Int64.max_signed ->
  exists r',
    waitEach ctx instants (NewRateLimiter t0 rps rpm rph) = Some r'
    /\ 0 <= secCount r' <= Z.of_nat (length instants)
    /\ 0 <= minCount r' <= Z.of_nat (length instants)
    /\ 0 <= hrCount r' <= Z.of_nat (length instants).
Proof.
  intros Hctx Hs Hm Hh.
  destruct (waitEach_room ctx Hctx instants (NewRateLimiter t0 rps rpm rph) 0)
    as (r' & Hrun & Hb); cbn; try lia.
  exists r'. split; [exact Hrun|]. lia.
Qed.

(** X13. [Wait] never changes the three ceilings, however many resets and
    polls it goes through and however it returns. *)
Theorem Wait_keeps_ceilings (fuel : nat) (ctx : Context) (t : Z) (r : RateLimiter)
    (res : option error) (t' : Z) (r' : RateLimiter) :
  Wait fuel ctx t r = Some (res, t', r') ->
  requestsPerSecond r' = requestsPerSecond r
  /\ requestsPerMinute r' = requestsPerMinute r
  /\ requestsPerHour r' = requestsPerHour r.
Proof. intros Hrun. apply Wait_config in Hrun. exact Hrun. Qed.

(** ** The client *)

Lemma retryable_false (c : Client) (status : Z) :
  retryable c status = false <->
  Forall (fun s => status <> Int64.of_uint s) (retryOnStatus c).
Proof.
  unfold retryable. induction (retryOnStatus c) as [|s l IH]; cbn.
  - split; [constructor|reflexivity].
  - rewrite orb_false_iff, IH, Forall_cons, Z.eqb_neq. tauto.
Qed.

Section ClientMore.

Variable c : Client.
Variable ctx : Context.

(** When the loop makes as many exchanges as it has iterations, it returns
    the error of the last one. *)
Lemma loop_all_used (fuel : nat) :
  forall n k lastErr t s res t' s',
  k + Z.of_nat n = maxRetries (retryer c) + 1 ->
  loop (retryer c) ctx (attempt c fuel ctx) n k lastErr t s = Some (res, t', s') ->
  calls s'.1 = (calls s.1 + n)%nat ->
  res = match n with
        | O => lastErr
        | S _ => match outcome (httpClient c (pred (calls s'.1))) with
                 | inl e => Some e
                 | inr _ => None
                 end
        end.
Proof.
  induction n as [|n IH]; intros k lastErr t s res t' s' Hk Hrun Hcalls.
  - cbn in Hrun. now injection Hrun as <- <- <-.
  - rewrite loop_unfold in Hrun.
    destruct (Err ctx t); [injection Hrun as <- <- <-; lia|].
    destruct (attempt c fuel ctx t s) as [[[[b e] t1] s1]|] eqn:Hcall; [|discriminate].
    apply attempt_inv in Hcall.
    assert (Hnext : forall t2,
      calls s1.1 = S (calls s.1) ->
      match outcome (httpClient c (calls s.1)) with
      | inl e0 => e = Some e0
      | inr _ => e = None
      end ->
      loop (retryer c) ctx (attempt c fuel ctx) n (k + 1) e t2 s1 = Some (res, t', s') ->
      res = match outcome (httpClient c (pred (calls s'.1))) with
            | inl e0 => Some e0
            | inr _ => None
            end).
    { intros t2 Ec He Hloop.
      pose proof Hloop as Hcount.
      apply (loop_counts _ _ _ (fun s => calls s.1)) in Hcount;
        [|intros; eapply attempt_calls; eassumption].
      apply IH in Hloop; [|lia|lia]. rewrite Hloop.
      destruct n; [|reflexivity].
      replace (pred (calls s'.1)) with (calls s.1) by lia.
      destruct (outcome (httpClient c (calls s.1))); exact He. }
    destruct Hcall as [(-> & _ & _ & Ec & _)|[(err & Hout & -> & -> & Ec & _)
      |(status & body & Hout & -> & -> & Ec & _)]].
    + cbn in Hrun. injection Hrun as <- <- <-. lia.
    + cbn [negb] in Hrun.
      destruct (Z.ltb_spec k (maxRetries (retryer c))).
      * destruct (selectAfter ctx (calculateBackoff (retryer c) k) t1) as [[cerr|] t2].
        -- injection Hrun as <- <- <-. lia.
        -- eapply Hnext; [exact Ec|now rewrite Hout|exact Hrun].
      * eapply Hnext; [exact Ec|now rewrite Hout|exact Hrun].
    + destruct (retryable c status); cbn [negb] in Hrun.
      * destruct (Z.ltb_spec k (maxRetries (retryer c))).
        -- destruct (selectAfter ctx (calculateBackoff (retryer c) k) t1)
             as [[cerr|] t2].
           ++ injection Hrun as <- <- <-. lia.
           ++ eapply Hnext; [exact Ec|now rewrite Hout|exact Hrun].
        -- eapply Hnext; [exact Ec|now rewrite Hout|exact Hrun].
      * injection Hrun as <- <- <-.
        replace (pred (calls s1.1)) with (calls s.1) by lia.
        now rewrite Hout.
Qed.

(** X15. When [Do] has returned after [maxRetries + 1] exchanges, it has
    returned what the last exchange brought back, whatever came before: the
    error of the transport with a nil response when the exchange failed;
    the response with a nil error when there was one, its body closed
    exactly when its status is in the configured set. *)
Theorem Do_exhausted_returns_last_exchange (fuel : nat) (t : Z) (w : World)
    (resp : option nat) (err : option error) (t' : Z) (w' : World) :
  Int64.in_unsigned (maxRetries (retryer c)) ->
  httpclient.Do c fuel ctx t w = Some (resp, err, t', w') ->
  Z.of_nat (calls w') = Z.of_nat (calls w) + (maxRetries (retryer c) + 1) ->
  match outcome (httpClient c (pred (calls w'))) with
  | inl e => resp = None /\ err = Some e
  | inr (status, body) =>
    err = None
    /\ exists p, resp = Some p
         /\ heap w' !! p = Some (mkResponse status body (retryable c status))
  end.
Proof.
  intros HR Hrun Hcalls. unfold Int64.in_unsigned in HR.
  pose proof (Do_calls _ _ _ _ _ _ _ _ _ Hrun) as Hle.
  pose proof (Do_recorded _ _ _ _ _ _ _ _ _ Hrun) as Hrec.
  apply Do_inv in Hrun.
  assert (Hatt : attempts (retryer c) = maxRetries (retryer c) + 1).
  { pose proof (attempts_range (retryer c)) as Hb.
    unfold attempts, Int64.wrapU in *.
    pose proof (Z.mod_le (maxRetries (retryer c) + 1) Int64.modulus
                  ltac:(lia) ltac:(reflexivity)) as Hm.
    lia. }
  pose proof (loop_all_used fuel (Z.to_nat (attempts (retryer c))) 0 None t
                (w, None) err t' (w', resp)) as Hex.
  cbn [fst snd] in Hex. specialize (Hex ltac:(lia) Hrun ltac:(lia)).
  destruct (Z.to_nat (attempts (retryer c))) as [|n] eqn:En; [lia|].
  destruct Hrec as [(E & _)|(_ & Hlast)]; [cbn [fst] in E; lia|].
  unfold lastExchange in Hlast. cbn [fst snd] in Hlast.
  destruct (outcome (httpClient c (pred (calls w')))) as [e|[status body]]; auto.
Qed.

(** X16. When the first exchange of a call brings back a response whose
    status equals none of the configured statuses (converted to [int]; a
    nil or empty list included), [Do] returns that response at once: one
    exchange, a nil error, the body left open. *)
Theorem Do_returns_final_response (fuel : nat) (t : Z) (w : World)
    (status : Z) (body : string) (resp : option nat) (err : option error)
    (t' : Z) (w' : World) :
  firesAt ctx = None ->
  1 <= attempts (retryer c) ->
  outcome (httpClient c (calls w)) = inr (status, body) ->
  Forall (fun s => status <> Int64.of_uint s) (retryOnStatus c) ->
  httpclient.Do c fuel ctx t w = Some (resp, err, t', w') ->
  resp = Some (length (heap w)) /\ err = None
  /\ calls w' = S (calls w)
  /\ heap w' = heap w ++ [mkResponse status body false].
Proof.
  intros Hctx Hbudget Hout Hnot Hrun. apply retryable_false in Hnot.
  apply Do_inv in Hrun.
  destruct (Z.to_nat (attempts (retryer c))) as [|n] eqn:En; [lia|].
  apply loop_step_response with (status := status) (body := body) in Hrun;
    [|assumption..].
  destruct Hrun as (t1 & s1 & Ec & Eh & Er & Hres).
  rewrite Hnot in Hres, Eh. injection Hres as -> -> Hs. subst s1.
  cbn [fst snd] in *. auto.
Qed.

(** X17. A call of [Do] makes at most as many exchanges as the retry loop
    has iterations; it allocates at most one response per exchange, and it
    leaves the responses of earlier calls as they are. *)
Theorem Do_exchange_budget (fuel : nat) (t : Z) (w : World) (resp : option nat)
    (err : option error) (t' : Z) (w' : World) :
  httpclient.Do c fuel ctx t w = Some (resp, err, t', w') ->
  (calls w <= calls w')%nat
  /\ Z.of_nat (calls w' - calls w) <= attempts (retryer c)
  /\ exists new, heap w' = heap w ++ new
                 /\ (length new <= calls w' - calls w)%nat.
Proof.
  intros Hrun. pose proof (Do_calls _ _ _ _ _ _ _ _ _ Hrun) as Hle.
  pose proof (attempts_range (retryer c)) as Hb.
  split; [lia|]. split; [lia|].
  apply Do_inv in Hrun.
  refine (proj2 (loop_preserves _ _ _
            (fun s => (calls w <= calls s.1)%nat
                      /\ exists new, heap s.1 = heap w ++ new
                           /\ (length new <= calls s.1 - calls w)%nat)
            _ _ _ _ _ _ _ _ _ _ Hrun)).
  - intros t0 s b e t1 s1 (Hc & new & Hh & Hl) Hcall. apply attempt_inv in Hcall.
    destruct Hcall as [(_ & _ & _ & Ec & Eh & _)|[(e0 & _ & _ & _ & Ec & Eh & _)
      |(st & bd & _ & _ & _ & Ec & Eh & _)]].
    + split; [lia|]. exists new. rewrite Eh, Ec. auto.
    + split; [lia|]. exists new. rewrite Eh. split; [exact Hh|lia].
    + split; [lia|]. exists (new ++ [mkResponse st bd (retryable c st)]).
      rewrite Eh, Hh, app_assoc. split; [reflexivity|].
      rewrite length_app. cbn. lia.
  - cbn. split; [lia|]. exists []. rewrite app_nil_r. split; [reflexivity|cbn; lia].
Qed.

(** X19. A signal that has fired before the call makes [Do] return its
    error at once, with a nil response: no admission is asked of the
    limiter and no exchange is made. *)
Theorem Do_cancelled_before_start (fuel : nat) (t : Z) (w : World) (e : error) :
  Err ctx t = Some e ->
  1 <= attempts (retryer c) ->
  httpclient.Do c fuel ctx t w = Some (None, Some e, t, w).
Proof.
  intros He Hbudget. unfold httpclient.Do, retry.Do.
  destruct (Z.to_nat (attempts (retryer c))) as [|n] eqn:En; [lia|].
  now rewrite (loop_fired _ _ _ _ _ _ _ _ _ He).
Qed.

Lemma Do_fuel_mono (fuel fuel' : nat) (t : Z) (w : World)
    (res : option nat * option error * Z * World) :
  (fuel <= fuel')%nat ->
  httpclient.Do c fuel ctx t w = Some res ->
  httpclient.Do c fuel' ctx t w = Some res.
Proof.
  unfold httpclient.Do, retry.Do. intros Hle Hrun.
  destruct (loop (retryer c) ctx (attempt c fuel ctx) _ _ _ _ _) as [x|] eqn:Hloop;
    [|discriminate].
  rewrite (loop_mono (retryer c) ctx (attempt c fuel ctx) (attempt c fuel' ctx)
             ltac:(intros t0 s0 y; apply attempt_mono; exact Hle) _ _ _ _ _ _ Hloop).
  exact Hrun.
Qed.

(** X18. With positive ceilings and a signal that never fires, [Do]
    returns: the polls of the limiter come to an end at every attempt, and
    the result no longer depends on the bound put on them. *)
Theorem Do_returns (t : Z) (w : World) :
  firesAt ctx = None -> positiveLimits (limiter w) ->
  exists fuel res,
    forall fuel', (fuel <= fuel')%nat -> httpclient.Do c fuel' ctx t w = Some res.
Proof.
  intros Hctx Hpos. destruct (Do_total c ctx t w Hctx Hpos) as (fuel & res & Hrun).
  exists fuel, res. intros fuel' Hle. eapply Do_fuel_mono; eassumption.
Qed.

End ClientMore.

(** ** The further properties at concrete inputs *)

Lemma calculateBackoff_in_range_witness :
  0 <= 3 < 63
  /\ Int64.in_signed (baseDelay retryer_100ms_1s * 2 ^ 3)
  /\ calculateBackoff retryer_100ms_1s 3
     = Z.min (baseDelay retryer_100ms_1s * 2 ^ 3) (maxDelay retryer_100ms_1s).
Proof.
  assert (Hk : 0 <= 3 < 63) by lia.
  assert (Hr : Int64.in_signed (baseDelay retryer_100ms_1s * 2 ^ 3)).
  { vm_compute. split; discriminate. }
  split; [exact Hk|]. split; [exact Hr|].
  exact (calculateBackoff_in_range retryer_100ms_1s 3 Hk Hr).
Defined.

Lemma Do_always_retry_witness :
  firesAt Background = None
  /\ alwaysRetries stubborn
  /\ 0 <= maxRetries retryer_2_10ms_1s < Int64.max_unsigned
  /\ exists e t' s' log,
       retry.Do retryer_2_10ms_1s Background (logged stubborn) 0 (0%nat, [])
       = Some (e, t', (s', log))
       /\ Z.of_nat (length log) = maxRetries retryer_2_10ms_1s + 1
       /\ last log = Some e.
Proof.
  assert (Hfn : alwaysRetries stubborn).
  { intros t s. unfold stubborn. eauto. }
  assert (HR : 0 <= maxRetries retryer_2_10ms_1s < Int64.max_unsigned).
  { vm_compute. split; [discriminate|reflexivity]. }
  split; [reflexivity|]. split; [exact Hfn|]. split; [exact HR|].
  exact (Do_always_retry retryer_2_10ms_1s Background stubborn 0 0%nat
           eq_refl Hfn HR).
Defined.

Lemma Do_fired_witness :
  Err (CanceledAt 0) 5 = Some Canceled
  /\ 1 <= attempts retryer_3_10ms_1s
  /\ retry.Do retryer_3_10ms_1s (CanceledAt 0) (flaky 2) 5 0%nat
     = Some (Some Canceled, 5, 0%nat).
Proof.
  assert (Hb : 1 <= attempts retryer_3_10ms_1s) by (vm_compute; discriminate).
  split; [reflexivity|]. split; [exact Hb|].
  exact (Do_fired retryer_3_10ms_1s (CanceledAt 0) (flaky 2) 5 0%nat Canceled
           eq_refl Hb).
Defined.

Lemma Do_call_budget_witness :
  retry.Do retryer_3_10ms_1s Background (logged (flaky 2)) 0 (0%nat, [])
  = Some (None, 33000000,
          (3%nat, [Some (ErrorString "temporary error");
                   Some (ErrorString "temporary error"); None]))
  /\ Z.of_nat (length [Some (ErrorString "temporary error");
                       Some (ErrorString "temporary error"); @None error])
     <= attempts retryer_3_10ms_1s.
Proof.
  split; [vm_compute; reflexivity|].
  apply (Do_call_budget retryer_3_10ms_1s Background (flaky 2) 0 0%nat None
           33000000 3%nat).
  vm_compute. reflexivity.
Defined.

Lemma Do_error_origin_witness :
  retry.Do retryer_3_10ms_1s Background (logged (flaky 2)) 0 (0%nat, [])
  = Some (None, 33000000,
          (3%nat, [Some (ErrorString "temporary error");
                   Some (ErrorString "temporary error"); None]))
  /\ ((@None error = Some (ctxErr Background)
       /\ Err Background 33000000 = Some (ctxErr Background))
      \/ ([Some (ErrorString "temporary error");
           Some (ErrorString "temporary error"); @None error] = []
          /\ @None error = None)
      \/ last [Some (ErrorString "temporary error");
               Some (ErrorString "temporary error"); @None error] = Some None).
Proof.
  split; [vm_compute; reflexivity|].
  apply (Do_error_origin retryer_3_10ms_1s Background (flaky 2) 0 0%nat None
           33000000 3%nat).
  vm_compute. reflexivity.
Defined.

Lemma Do_cancelled_in_backoff_witness :
  1 <= maxRetries retryer_3_10ms_1s < Int64.max_unsigned
  /\ Err (CanceledAt (5 * Millisecond)) 0 = None
  /\ flaky 2 0 0%nat
     = Some (true, Some (ErrorString "temporary error"), 0 + 1 * Millisecond, 1%nat)
  /\ firesAt (CanceledAt (5 * Millisecond)) = Some (5 * Millisecond)
  /\ 5 * Millisecond
     <= 0 + 1 * Millisecond + Z.max 0 (calculateBackoff retryer_3_10ms_1s 0)
  /\ retry.Do retryer_3_10ms_1s (CanceledAt (5 * Millisecond)) (flaky 2) 0 0%nat
     = Some (Some (ctxErr (CanceledAt (5 * Millisecond))),
             Z.max (0 + 1 * Millisecond) (5 * Millisecond), 1%nat).
Proof.
  assert (HR : 1 <= maxRetries retryer_3_10ms_1s < Int64.max_unsigned).
  { vm_compute. split; [discriminate|reflexivity]. }
  assert (Hle : 5 * Millisecond
                <= 0 + 1 * Millisecond
                   + Z.max 0 (calculateBackoff retryer_3_10ms_1s 0)).
  { vm_compute. discriminate. }
  split; [exact HR|]. split; [reflexivity|]. split; [reflexivity|].
  split; [reflexivity|]. split; [exact Hle|].
  exact (Do_cancelled_in_backoff retryer_3_10ms_1s (CanceledAt (5 * Millisecond))
           (flaky 2) 0 0%nat (Some (ErrorString "temporary error"))
           (0 + 1 * Millisecond) 1%nat (5 * Millisecond)
           HR eq_refl eq_refl eq_refl Hle).
Defined.

Lemma Do_without_retries_witness :
  maxRetries retryer_once = 0
  /\ Err Background 0 = None
  /\ flaky 2 0 0%nat
     = Some (true, Some (ErrorString "temporary error"), 0 + 1 * Millisecond, 1%nat)
  /\ retry.Do retryer_once Background (flaky 2) 0 0%nat
     = Some (Some (ErrorString "temporary error"), 0 + 1 * Millisecond, 1%nat).
Proof.
  split; [reflexivity|]. split; [reflexivity|]. split; [reflexivity|].
  exact (Do_without_retries retryer_once Background (flaky 2) 0 0%nat true
           (Some (ErrorString "temporary error")) (0 + 1 * Millisecond) 1%nat
           eq_refl eq_refl eq_refl).
Defined.

Lemma Wait_cancelled_promptly_witness :
  Wait 3 (WithDeadline (150 * Millisecond)) 0 (NewRateLimiter 0 0 0 0)
  = Some (Some DeadlineExceeded, 150 * Millisecond, NewRateLimiter 0 0 0 0)
  /\ exists f,
       firesAt (WithDeadline (150 * Millisecond)) = Some f
       /\ 150 * Millisecond = Z.max 0 f
       /\ nothingConsumed (NewRateLimiter 0 0 0 0) (NewRateLimiter 0 0 0 0).
Proof.
  split; [reflexivity|].
  apply (Wait_cancelled_promptly 3 (WithDeadline (150 * Millisecond)) 0
           (NewRateLimiter 0 0 0 0) DeadlineExceeded (150 * Millisecond)
           (NewRateLimiter 0 0 0 0)).
  reflexivity.
Defined.

Lemma Wait_admits_in_time_witness :
  firesAt Background = None
  /\ positiveLimits fullSecond
  /\ opensBy Second fullSecond
  /\ exists fuel t' r',
       Wait fuel Background (3 * Millisecond) fullSecond = Some (None, t', r')
       /\ 3 * Millisecond <= t' <= Z.max (3 * Millisecond) (Second + pollInterval).
Proof.
  assert (Hpos : positiveLimits fullSecond).
  { unfold positiveLimits. cbn. lia. }
  assert (Hopen : opensBy Second fullSecond).
  { unfold opensBy. cbn. lia. }
  split; [reflexivity|]. split; [exact Hpos|]. split; [exact Hopen|].
  exact (Wait_admits_in_time Background (3 * Millisecond) Second fullSecond
           eq_refl Hpos Hopen).
Defined.

Lemma Wait_blocks_until_rollover_witness :
  Wait 30 Background (3 * Millisecond) fullSecond
  = Some (None, 1003000000,
          mkRateLimiter 1 3 3 2003000000 60000000000 3600000000000 2 100 1000)
  /\ (requestsPerSecond fullSecond <= secCount fullSecond ->
      3 * Millisecond <= secReset fullSecond -> secReset fullSecond < 1003000000)
  /\ (requestsPerMinute fullSecond <= minCount fullSecond ->
      3 * Millisecond <= minReset fullSecond -> minReset fullSecond < 1003000000)
  /\ (requestsPerHour fullSecond <= hrCount fullSecond ->
      3 * Millisecond <= hrReset fullSecond -> hrReset fullSecond < 1003000000).
Proof.
  split; [vm_compute; reflexivity|].
  apply (Wait_blocks_until_rollover 30 Background (3 * Millisecond) fullSecond
           1003000000
           (mkRateLimiter 1 3 3 2003000000 60000000000 3600000000000 2 100 1000)).
  vm_compute. reflexivity.
Defined.

Lemma fresh_limiter_admits_burst_witness :
  firesAt Background = None
  /\ Z.of_nat (length [1000000; 2000000; 3000000]) <= 3 <= Int64.max_signed
  /\ Z.of_nat (length [1000000; 2000000; 3000000]) <= 100 <= Int64.max_signed
  /\ Z.of_nat (length [1000000; 2000000; 3000000]) <= 1000 <= Int64.max_signed
  /\ exists r',
       waitEach Background [1000000; 2000000; 3000000] (NewRateLimiter 0 3 100 1000)
       = Some r'
       /\ 0 <= secCount r' <= Z.of_nat (length [1000000; 2000000; 3000000])
       /\ 0 <= minCount r' <= Z.of_nat (length [1000000; 2000000; 3000000])
       /\ 0 <= hrCount r' <= Z.of_nat (length [1000000; 2000000; 3000000]).
Proof.
  assert (H3 : Z.of_nat (length [1000000; 2000000; 3000000]) <= 3 <= Int64.max_signed).
  { vm_compute. split; discriminate. }
  assert (H100 : Z.of_nat (length [1000000; 2000000; 3000000]) <= 100
                 <= Int64.max_signed).
  { vm_compute. split; discriminate. }
  assert (H1000 : Z.of_nat (length [1000000; 2000000; 3000000]) <= 1000
                  <= Int64.max_signed).
  { vm_compute. split; discriminate. }
  split; [reflexivity|]. split; [exact H3|]. split; [exact H100|].
  split; [exact H1000|].
  exact (fresh_limiter_admits_burst Background [1000000; 2000000; 3000000]
           0 3 100 1000 eq_refl H3 H100 H1000).
Defined.

Lemma Wait_keeps_ceilings_witness :
  Wait 30 Background (3 * Millisecond) fullSecond
  = Some (None, 1003000000,
          mkRateLimiter 1 3 3 2003000000 60000000000 3600000000000 2 100 1000)
  /\ 2 = requestsPerSecond fullSecond
  /\ 100 = requestsPerMinute fullSecond
  /\ 1000 = requestsPerHour fullSecond.
Proof.
  split; [vm_compute; reflexivity|].
  apply (Wait_keeps_ceilings 30 Background (3 * Millisecond) fullSecond None
           1003000000
           (mkRateLimiter 1 3 3 2003000000 60000000000 3600000000000 2 100 1000)).
  vm_compute. reflexivity.
Defined.

Lemma Do_blocked_returns_signal_witness :
  firesAt (WithDeadline (50 * Millisecond)) = Some (50 * Millisecond)
  /\ requestsPerSecond (limiter blockedWorld) = 0
  /\ 0 <= secCount (limiter blockedWorld)
  /\ 1 <= attempts (retryer blockedClient)
  /\ exists fuel w',
       httpclient.Do blockedClient fuel (WithDeadline (50 * Millisecond)) 0 blockedWorld
       = Some (None, Some (ctxErr (WithDeadline (50 * Millisecond))),
               Z.max 0 (50 * Millisecond), w')
       /\ calls w' = calls blockedWorld /\ heap w' = heap blockedWorld
       /\ (Err (WithDeadline (50 * Millisecond)) 0 = None ->
           attempt blockedClient fuel (WithDeadline (50 * Millisecond)) 0
             (blockedWorld, None)
           = Some (false, Some (ctxErr (WithDeadline (50 * Millisecond))),
                   Z.max 0 (50 * Millisecond), (w', None))).
Proof.
  assert (Hcnt : 0 <= secCount (limiter blockedWorld)) by (vm_compute; discriminate).
  assert (Hb : 1 <= attempts (retryer blockedClient)) by (vm_compute; discriminate).
  split; [reflexivity|]. split; [reflexivity|]. split; [exact Hcnt|].
  split; [exact Hb|].
  exact (Do_blocked_returns_signal blockedClient (WithDeadline (50 * Millisecond))
           (50 * Millisecond) 0 blockedWorld eq_refl eq_refl Hcnt Hb).
Defined.

Lemma Do_exhausted_returns_last_exchange_witness :
  Int64.in_unsigned (maxRetries (retryer impatientClient))
  /\ exists t' w',
       httpclient.Do impatientClient 1 Background 0 freshWorld
       = Some (Some 2%nat, None, t', w')
       /\ Z.of_nat (calls w')
          = Z.of_nat (calls freshWorld) + (maxRetries (retryer impatientClient) + 1)
       /\ match outcome (httpClient impatientClient (pred (calls w'))) with
          | inl e => Some 2%nat = None /\ @None error = Some e
          | inr (status, body) =>
            @None error = None
            /\ exists p, Some 2%nat = Some p
                 /\ heap w' !! p
                    = Some (mkResponse status body (retryable impatientClient status))
          end.
Proof.
  assert (HR : Int64.in_unsigned (maxRetries (retryer impatientClient))).
  { vm_compute. split; discriminate. }
  split; [exact HR|].
  eexists _, _. split; [vm_compute; reflexivity|]. split; [reflexivity|].
  eapply (Do_exhausted_returns_last_exchange impatientClient Background 1 0 freshWorld).
  - exact HR.
  - vm_compute. reflexivity.
  - reflexivity.
Defined.

Lemma Do_returns_final_response_witness :
  firesAt Background = None
  /\ 1 <= attempts (retryer plainClient)
  /\ outcome (httpClient plainClient (calls freshWorld)) = inr (200, "OK"%string)
  /\ Forall (fun s => 200 <> Int64.of_uint s) (retryOnStatus plainClient)
  /\ exists t' w',
       httpclient.Do plainClient 1 Background 0 freshWorld
       = Some (Some 0%nat, None, t', w')
       /\ (Some 0%nat = Some (length (heap freshWorld)) /\ @None error = None
           /\ calls w' = S (calls freshWorld)
           /\ heap w' = heap freshWorld ++ [mkResponse 200 "OK" false]).
Proof.
  assert (Hb : 1 <= attempts (retryer plainClient)) by (vm_compute; discriminate).
  assert (Hnot : Forall (fun s => 200 <> Int64.of_uint s) (retryOnStatus plainClient)).
  { repeat constructor. vm_compute. discriminate. }
  split; [reflexivity|]. split; [exact Hb|]. split; [reflexivity|].
  split; [exact Hnot|].
  eexists _, _. split; [vm_compute; reflexivity|].
  eapply (Do_returns_final_response plainClient Background 1 0 freshWorld 200 "OK").
  - reflexivity.
  - exact Hb.
  - reflexivity.
  - exact Hnot.
  - vm_compute. reflexivity.
Defined.

Lemma Do_exchange_budget_witness :
  exists t' w',
    httpclient.Do impatientClient 1 Background 0 freshWorld
    = Some (Some 2%nat, None, t', w')
    /\ ((calls freshWorld <= calls w')%nat
        /\ Z.of_nat (calls w' - calls freshWorld) <= attempts (retryer impatientClient)
        /\ exists new, heap w' = heap freshWorld ++ new
                       /\ (length new <= calls w' - calls freshWorld)%nat).
Proof.
  eexists _, _. split; [vm_compute; reflexivity|].
  eapply (Do_exchange_budget impatientClient Background 1 0 freshWorld).
  vm_compute. reflexivity.
Defined.

Lemma Do_returns_witness :
  firesAt Background = None
  /\ positiveLimits (limiter freshWorld)
  /\ exists fuel res,
       forall fuel', (fuel <= fuel')%nat ->
         httpclient.Do impatientClient fuel' Background 0 freshWorld = Some res.
Proof.
  assert (Hpos : positiveLimits (limiter freshWorld)).
  { unfold positiveLimits. cbn. lia. }
  split; [reflexivity|]. split; [exact Hpos|].
  exact (Do_returns impatientClient Background 0 freshWorld eq_refl Hpos).
Defined.

Lemma Do_cancelled_before_start_witness :
  Err (CanceledAt 0) 5 = Some Canceled
  /\ 1 <= attempts (retryer impatientClient)
  /\ httpclient.Do impatientClient 1 (CanceledAt 0) 5 freshWorld
     = Some (None, Some Canceled, 5, freshWorld).
Proof.
  assert (Hb : 1 <= attempts (retryer impatientClient)) by (vm_compute; discriminate).
  split; [reflexivity|]. split; [exact Hb|].
  exact (Do_cancelled_before_start impatientClient (CanceledAt 0) 1 5 freshWorld
           Canceled eq_refl Hb).
Defined.

(** ** The providers and the market data front *)




Lemma intervalToUnitInterval_cases (i : types.Interval) :
  (In i [types.Interval1m; types.Interval5m; types.Interval15m; types.Interval30m;
         types.Interval1h; types.Interval1d; types.Interval1wk; types.Interval1mo]
   /\ (upstox.intervalToUnitInterval i).2 = None
   /\ In (upstox.intervalToUnitInterval i).1.1
        ["minutes"; "hours"; "days"; "weeks"; "months"]%string
   /\ (upstox.intervalToUnitInterval i).1.2 <> ""%string)
  \/ (~ In i [types.Interval1m; types.Interval5m; types.Interval15m;
              types.Interval30m; types.Interval1h; types.Interval1d;
              types.Interval1wk; types.Interval1mo]
      /\ upstox.intervalToUnitInterval i
         = (""%string, ""%string,
            Some (ErrorString (String.append "unknown interval: " i)))).
Proof.
  unfold upstox.intervalToUnitInterval.
  destruct (String.eqb_spec i types.Interval1m) as [->|N1];
    [left; split; [simpl; tauto|]; split; [reflexivity|];
     split; [simpl; tauto|discriminate]|].
  destruct (String.eqb_spec i types.Interval5m) as [->|N2];
    [left; split; [simpl; tauto|]; split; [reflexivity|];
     split; [simpl; tauto|discriminate]|].
  destruct (String.eqb_spec i types.Interval15m) as [->|N3];
    [left; split; [simpl; tauto|]; split; [reflexivity|];
     split; [simpl; tauto|discriminate]|].
  destruct (String.eqb_spec i types.Interval30m) as [->|N4];
    [left; split; [simpl; tauto|]; split; [reflexivity|];
     split; [simpl; tauto|discriminate]|].
  destruct (String.eqb_spec i types.Interval1h) as [->|N5];
    [left; split; [simpl; tauto|]; split; [reflexivity|];
     split; [simpl; tauto|discriminate]|].
  destruct (String.eqb_spec i types.Interval1d) as [->|N6];
    [left; split; [simpl; tauto|]; split; [reflexivity|];
     split; [simpl; tauto|discriminate]|].
  destruct (String.eqb_spec i types.Interval1wk) as [->|N7];
    [left; split; [simpl; tauto|]; split; [reflexivity|];
     split; [simpl; tauto|discriminate]|].
  destruct (String.eqb_spec i types.Interval1mo) as [->|N8];
    [left; split; [simpl; tauto|]; split; [reflexivity|];
     split; [simpl; tauto|discriminate]|].
  right. split; [|reflexivity].
  intros [H|[H|[H|[H|[H|[H|[H|[H|[]]]]]]]]]; congruence.
Qed.

(** X21. [intervalToUnitInterval] accepts exactly the eight intervals 1m,
    5m, 15m, 30m, 1h, 1d, 1wk and 1mo. For these the unit is one of
    minutes, hours, days, weeks, months and the count is not empty; for
    every other string unit and count are empty and the error names the
    string. The declared intervals 5d and 3mo are among those refused. *)
Theorem intervalToUnitInterval_supported (i : types.Interval) :
  let r := upstox.intervalToUnitInterval i in
  (r.2 = None <->
   In i [types.Interval1m; types.Interval5m; types.Interval15m; types.Interval30m;
         types.Interval1h; types.Interval1d; types.Interval1wk; types.Interval1mo])
  /\ (r.2 = None ->
      In r.1.1 ["minutes"; "hours"; "days"; "weeks"; "months"]%string
      /\ r.1.2 <> ""%string)
  /\ (r.2 <> None ->
      r.1.1 = ""%string /\ r.1.2 = ""%string
      /\ r.2 = Some (ErrorString (String.append "unknown interval: " i)))
  /\ (upstox.intervalToUnitInterval types.Interval5d).2 <> None
  /\ (upstox.intervalToUnitInterval types.Interval3mo).2 <> None.
Proof.
  cbn zeta. split; [|split; [|split; [|split]]].
  4: now vm_compute.
  4: now vm_compute.
  all: destruct (intervalToUnitInterval_cases i) as [(Hin & Hok & Hunit & Hcount)
                                                     |(Hout & Hrefused)].
  - split; auto.
  - rewrite Hrefused. split; [discriminate|contradiction].
  - auto.
  - rewrite Hrefused. discriminate.
  - congruence.
  - rewrite Hrefused. auto.
Qed.

Section FetchProperties.

Context {W F : Type}.
Variable dateIn : Z -> marketdata.Date.
Variable midnight : marketdata.Date -> Z.
Variable m : @marketdata.MarketData W F.

(** X22. Called without a start (the zero time), [Fetch] asks Yahoo alone,
    for the bars since the midnight that began today in Asia/Kolkata, and
    returns its answer as it is; Upstox is not consulted. This needs that
    the date of that midnight is today's date. *)
Theorem Fetch_without_start (now : Z) (ctx : Context) (symbol : string)
    (interval : types.Interval) (end_ : Z) (w : W) :
  dateIn (midnight (dateIn now)) = dateIn now ->
  marketdata.Fetch dateIn midnight m now ctx symbol interval marketdata.zeroTime end_ w
  = marketdata.Provide (marketdata.yahoo m) ctx symbol (marketdata.exchange m)
      interval (midnight (dateIn now)) end_ w.
Proof.
  intros Hday. unfold marketdata.Fetch, marketdata.IsZero.
  rewrite Z.eqb_refl. cbn zeta. rewrite Hday, !Z.eqb_refl. reflexivity.
Qed.

(** X23. For a start that falls on today's date in Asia/Kolkata, [Fetch]
    asks Yahoo alone and returns its answer as it is, error included;
    Upstox is not consulted. *)
Theorem Fetch_of_today (now : Z) (ctx : Context) (symbol : string)
    (interval : types.Interval) (start end_ : Z) (w : W) :
  start <> marketdata.zeroTime ->
  dateIn start = dateIn now ->
  marketdata.Fetch dateIn midnight m now ctx symbol interval start end_ w
  = marketdata.Provide (marketdata.yahoo m) ctx symbol (marketdata.exchange m)
      interval start end_ w.
Proof.
  intros Hstart Hday. unfold marketdata.Fetch, marketdata.IsZero.
  destruct (Z.eqb_spec start marketdata.zeroTime); [contradiction|].
  cbn zeta. rewrite Hday, !Z.eqb_refl. reflexivity.
Qed.

(** X24. Whatever [Fetch] returns is the answer of one provider, to the
    request for the exchange of the market and the start it settled on:
    either the answer of Yahoo, asked first or after Upstox; or the data of
    Upstox, and then there is no error, the data are not empty and the
    start is not of today. An error or an empty answer is therefore always
    Yahoo's: what Upstox fails with never reaches the caller. *)
Theorem Fetch_answer_origin (now : Z) (ctx : Context) (symbol : string)
    (interval : types.Interval) (start end_ : Z) (w : W)
    (data : list (types.OHLCV F)) (err : option error) (w' : W) :
  marketdata.Fetch dateIn midnight m now ctx symbol interval start end_ w
  = (data, err, w') ->
  let start' := if marketdata.IsZero start then midnight (dateIn now) else start in
  let asked := marketdata.Provide (marketdata.upstox m) ctx symbol
                 (marketdata.exchange m) interval start' end_ w in
  (exists wy,
     marketdata.Provide (marketdata.yahoo m) ctx symbol (marketdata.exchange m)
       interval start' end_ wy = (data, err, w')
     /\ (wy = w \/ wy = asked.2))
  \/ (err = None /\ data <> [] /\ dateIn start' <> dateIn now
      /\ asked = (data, None, w')).
Proof.
  unfold marketdata.Fetch. cbn zeta.
  set (start' := if marketdata.IsZero start then midnight (dateIn now) else start).
  destruct ((marketdata.Year (dateIn start') =? marketdata.Year (dateIn now))
            && (marketdata.Month (dateIn start') =? marketdata.Month (dateIn now))
            && (marketdata.Day (dateIn start') =? marketdata.Day (dateIn now)))
    eqn:Hsame.
  - intros Hrun. left. exists w. auto.
  - destruct (marketdata.Provide (marketdata.upstox m) ctx symbol
                (marketdata.exchange m) interval start' end_ w)
      as [[d e] w1] eqn:Hup.
    destruct (negb (bool_decide (e = None)) || (length d =? 0)%nat) eqn:Hbad.
    + intros Hrun. left. exists w1. auto.
    + intros [= <- <- <-]. right.
      apply orb_false_iff in Hbad. destruct Hbad as (He & Hd).
      apply negb_false_iff, bool_decide_eq_true in He. subst e.
      split; [reflexivity|]. split.
      { intros ->. discriminate. }
      split; [|reflexivity].
      intros Heq. rewrite Heq, !Z.eqb_refl in Hsame. discriminate.
Qed.

End FetchProperties.


Lemma Fetch_without_start_witness :
  kolkataDate (kolkataMidnight (kolkataDate demoNow)) = kolkataDate demoNow
  /\ marketdata.Fetch kolkataDate kolkataMidnight demoMarket demoNow Background
       "RELIANCE" types.Interval1d marketdata.zeroTime 0 []
     = marketdata.Provide (marketdata.yahoo demoMarket) Background "RELIANCE"
         (marketdata.exchange demoMarket) types.Interval1d
         (kolkataMidnight (kolkataDate demoNow)) 0 [].
Proof.
  assert (Hday : kolkataDate (kolkataMidnight (kolkataDate demoNow))
                 = kolkataDate demoNow) by (vm_compute; reflexivity).
  split; [exact Hday|].
  exact (Fetch_without_start kolkataDate kolkataMidnight demoMarket demoNow
           Background "RELIANCE" types.Interval1d 0 [] Hday).
Defined.

Lemma Fetch_of_today_witness :
  demoNow - 1 * Hour <> marketdata.zeroTime
  /\ kolkataDate (demoNow - 1 * Hour) = kolkataDate demoNow
  /\ marketdata.Fetch kolkataDate kolkataMidnight demoMarket demoNow Background
       "RELIANCE" types.Interval1d (demoNow - 1 * Hour) 0 []
     = marketdata.Provide (marketdata.yahoo demoMarket) Background "RELIANCE"
         (marketdata.exchange demoMarket) types.Interval1d (demoNow - 1 * Hour) 0 [].
Proof.
  assert (Hstart : demoNow - 1 * Hour <> marketdata.zeroTime).
  { vm_compute. discriminate. }
  assert (Hday : kolkataDate (demoNow - 1 * Hour) = kolkataDate demoNow).
  { vm_compute. reflexivity. }
  split; [exact Hstart|]. split; [exact Hday|].
  exact (Fetch_of_today kolkataDate kolkataMidnight demoMarket demoNow
           Background "RELIANCE" types.Interval1d (demoNow - 1 * Hour) 0 []
           Hstart Hday).
Defined.

Lemma Fetch_answer_origin_witness :
  exists data w',
    marketdata.Fetch kolkataDate kolkataMidnight demoMarket demoNow Background
      "RELIANCE" types.Interval1d (demoNow - 72 * Hour) 0 []
    = (data, None, w')
    /\ w' = [upstox.Name; yahoo.Name]
    /\ (let start' := if marketdata.IsZero (demoNow - 72 * Hour)
                      then kolkataMidnight (kolkataDate demoNow)
                      else demoNow - 72 * Hour in
        let asked := marketdata.Provide (marketdata.upstox demoMarket) Background
                       "RELIANCE" (marketdata.exchange demoMarket)
                       types.Interval1d start' 0 [] in
        (exists wy,
           marketdata.Provide (marketdata.yahoo demoMarket) Background "RELIANCE"
             (marketdata.exchange demoMarket) types.Interval1d start' 0 wy
           = (data, None, w')
           /\ (wy = [] \/ wy = asked.2))
        \/ (@None error = None /\ data <> [] /\ kolkataDate start' <> kolkataDate demoNow
            /\ asked = (data, None, w'))).
Proof.
  eexists _, _. split; [vm_compute; reflexivity|]. split; [reflexivity|].
  eapply (Fetch_answer_origin kolkataDate kolkataMidnight demoMarket demoNow
            Background "RELIANCE" types.Interval1d (demoNow - 72 * Hour) 0 []).
  vm_compute. reflexivity.
Defined.
